(** * Ordered dithering scripts of miw2-deploy: a shallow embedding

    The development follows the five Python scripts

      - compress-backgrounds.py      (module [BackgroundsV1])
      - compress-backgrounds-v2.py   (module [BackgroundsV2])
      - compress-backgrounds-v3.py   (module [BackgroundsV3])
      - create-texture-assets.py     (module [TextureAssets])
      - create-classic-mac-textures.py (module [ClassicMac])

    Numbers.  Python [int]s are [Z] (or [nat] where they index a list).
    The numpy arrays of floats are lists of rows over [Q]: every float is a
    rational, comparison of two floats is comparison of the rationals, and
    every float operation the Bayer builders perform (scaling by 4, adding
    0.25/0.5/0.75/2/3, dividing by 4, 16 or 64, on values k/4, k/16, k/64)
    is exact in float32 and float64, so the rational result is the float
    result.  The one rounded operation, [gray / 255.0], is exact at p = 0
    and p = 255 and otherwise only ever meets thresholds that are
    multiples of 1/64 (or the literals 0.33 and 0.66), from which p/255 is
    further than 1/16320, far more than a rounding step; the comparison
    [img_array > threshold] is therefore decided as over [Q].

    Failure.  A raised [ValueError] is [None]; the unbounded recursion of
    the texture script takes the interpreter's recursion budget as an
    explicit argument. *)

From stdpp Require Import base list strings list_numbers.
From Stdlib Require Import ZArith QArith Qround Lia.

Open Scope Z_scope.

(** Comparison of floats is decidable, and computes. *)
#[global] Instance Qlt_decision (a b : Q) : Decision (a < b)%Q.
Proof. unfold Qlt. apply _. Defined.

#[global] Instance Qle_decision (a b : Q) : Decision (a <= b)%Q.
Proof. unfold Qle. apply _. Defined.

#[global] Instance Qeq_decision (a b : Q) : Decision (a == b)%Q.
Proof. unfold Qeq. apply _. Defined.

(** [int(v)] of a float: the fraction is cut off, towards zero. *)
Definition int_of_float (v : Q) : Z := Z.quot (Qnum v) (Z.pos (Qden v)).

(** ** numpy: the array operations the scripts use *)

Module Np.

(** [f] applied to every cell. *)
Definition mmap {A B : Type} (f : A -> B) (m : list (list A)) : list (list B) :=
  fmap (M:=list) (fmap (M:=list) f) m.

(** [m[y, x]] for an in-range index. *)
Definition cell {A : Type} (m : list (list A)) (y x : nat) : option A :=
  m !! y ≫= (λ row, row !! x).

(** All cells in row-major order ([m.flatten()]). *)
Definition cells {A : Type} (m : list (list A)) : list A := mjoin m.

(** [m.shape == (h, w)] *)
Definition has_shape {A : Type} (h w : nat) (m : list (list A)) : Prop :=
  length m = h ∧ Forall (λ row, length row = w) m.

(** [c * m], [m + c], [m / c] on float arrays *)
Definition scale (c : Q) (m : list (list Q)) : list (list Q) :=
  mmap (λ v, c * v)%Q m.
Definition shift (c : Q) (m : list (list Q)) : list (list Q) :=
  mmap (λ v, v + c)%Q m.
Definition divide (c : Q) (m : list (list Q)) : list (list Q) :=
  mmap (λ v, v / c)%Q m.

(** [np.array(rows)] of integer literals, as floats *)
Definition of_ints (m : list (list Z)) : list (list Q) := mmap inject_Z m.

(** [np.block([[a, b], [c, d]])] *)
Definition block {A : Type} (a b c d : list (list A)) : list (list A) :=
  zip_with app a b ++ zip_with app c d.

(** [np.zeros((h, w))] *)
Definition zeros (h w : nat) : list (list Q) := replicate h (replicate w 0%Q).

(** [dst[r0::step, c0::step] = src]: cell [(r0 + step*a, c0 + step*b)]
    of [dst] receives [src[a, b]]. *)
Definition set_strided {A : Type} (r0 c0 step : nat)
    (src dst : list (list A)) : list (list A) :=
  imap (λ y row,
    imap (λ x old,
      if bool_decide (r0 ≤ y ∧ c0 ≤ x ∧
                      (y - r0) mod step = 0 ∧ (x - c0) mod step = 0)%nat
      then default old (cell src ((y - r0) / step)%nat ((x - c0) / step)%nat)
      else old) row) dst.

(** [dst[r0::step, c0::step] = v] for a scalar [v] *)
Definition fill_strided {A : Type} (r0 c0 step : nat) (v : A)
    (dst : list (list A)) : list (list A) :=
  imap (λ y row,
    imap (λ x old,
      if bool_decide (r0 ≤ y ∧ c0 ≤ x ∧
                      (y - r0) mod step = 0 ∧ (x - c0) mod step = 0)%nat
      then v else old) row) dst.

(** [dst[r0:r1, c0:c1] = src] *)
Definition set_block {A : Type} (r0 r1 c0 c1 : nat)
    (src dst : list (list A)) : list (list A) :=
  imap (λ y row,
    imap (λ x old,
      if bool_decide (r0 ≤ y < r1 ∧ c0 ≤ x < c1)%nat
      then default old (cell src (y - r0)%nat (x - c0)%nat)
      else old) row) dst.

(** [np.tile(m, (reps_h, reps_w))] *)
Definition tile {A : Type} (m : list (list A)) (reps_h reps_w : nat)
    : list (list A) :=
  mjoin (replicate reps_h (fmap (M:=list) (λ row, mjoin (replicate reps_w row)) m)).

(** [m[:h, :w]] *)
Definition crop_to {A : Type} (h w : nat) (m : list (list A)) : list (list A) :=
  fmap (M:=list) (take w) (take h m).

(** [a > b], cell by cell, for arrays of one shape *)
Definition greater (a b : list (list Q)) : list (list bool) :=
  zip_with (zip_with (λ v t, bool_decide (t < v)%Q)) a b.

(** [a > t] for a scalar [t] *)
Definition greater_scalar (a : list (list Q)) (t : Q) : list (list bool) :=
  mmap (λ v, bool_decide (t < v)%Q) a.

(** [mask.astype(np.uint8) * 255] *)
Definition as_uint8_255 (mask : list (list bool)) : list (list Z) :=
  mmap (λ b : bool, if b then 255 else 0) mask.

(** Number of cells equal to [v]. *)
Definition count (v : Q) (m : list (list Q)) : nat :=
  length (filter (λ c, c == v)%Q (cells m)).

Definition count_int (v : Z) (m : list (list Z)) : nat :=
  length (filter (λ c, c = v) (cells m)).

End Np.

(** ** PIL: the image operations the scripts use

    An image is its rows of pixels.  These are library functions, written
    from the library's documentation. *)

Module Pil.

(** [min] of a list of coordinates (0 for the empty list, never used). *)
Definition min_list (ns : list nat) : nat :=
  match ns with
  | [] => 0%nat
  | n :: ns' => foldr Nat.min n ns'
  end.

(** [im.point(lut)]: every sample through the lookup function. *)
Definition point (lut : Z -> Z) (im : list (list Z)) : list (list Z) :=
  Np.mmap lut im.

(** The coordinates [(x, y)] of the non-zero samples, in scan order. *)
Definition nonzero_coords (im : list (list Z)) : list (nat * nat) :=
  fmap (M:=list) fst
    (filter (λ c, c.2 ≠ 0)
       (mjoin (imap (λ y row, imap (λ x v, ((x, y), v)) row) im))).

(** [im.getbbox()]: the bounding box [(left, upper, right, lower)] of the
    non-zero region, right and lower exclusive; [None] for an image that
    is zero everywhere. *)
Definition getbbox (im : list (list Z)) : option (nat * nat * nat * nat) :=
  let hits := nonzero_coords im in
  match hits with
  | [] => None
  | _ =>
      let xs := fmap (M:=list) fst hits in
      let ys := fmap (M:=list) snd hits in
      Some (min_list xs, min_list ys, S (max_list xs), S (max_list ys))
  end.

(** [im.crop((left, upper, right, lower))] for a box inside the image. *)
Definition crop {P : Type} (box : nat * nat * nat * nat)
    (im : list (list P)) : list (list P) :=
  let '(x0, y0, x1, y1) := box in
  fmap (M:=list) (λ row, take (x1 - x0) (drop x0 row))
       (take (y1 - y0) (drop y0 im)).

(** [Image.fromarray(a, mode='L').convert('1')] on an array that holds
    only 0 and 255: no error is left to diffuse, 255 becomes white
    ([true]) and 0 black ([false]). *)
Definition convert_1 (a : list (list Z)) : list (list bool) :=
  Np.mmap (λ v, bool_decide (128 < v)) a.

End Pil.

(** ** compress-backgrounds.py *)

Module BackgroundsV1.

Section Image.
Context {pixel : Type} (luma : pixel -> Z).

(** The tolerance is the literal 10. *)
Definition crop_black_background (image : list (list pixel))
    : list (list pixel) :=
  let gray := Np.mmap luma image in
  let bbox :=
    Pil.getbbox (Pil.point (λ p, if bool_decide (10 < p) then 255 else 0) gray) in
  match bbox with
  | Some box => Pil.crop box image
  | None => image
  end.

End Image.

Section Driver.
(** What the run finds on disk, and the outcome of [process_png_file] on
    each file: [True] unless opening, converting or saving it raised.  The
    file sizes are only summed and printed; they are left out. *)
Context (source_exists : bool) (rglob_png : list string)
        (process_png_file : string -> bool).

(** The counters [processed] and [failed] after the loop over the files. *)
Definition count_files (png_files : list string) : Z * Z :=
  foldl (λ '(processed, failed) png_file,
           if process_png_file png_file
           then (processed + 1, failed)
           else (processed, failed + 1))
        (0, 0) png_files.

Definition main (test : bool) : Z :=
  if negb source_exists then 1
  else
    let png_files := rglob_png in
    if bool_decide (png_files = []) then 1
    else
      let png_files := if test then take 5 png_files else png_files in
      let '(processed, failed) := count_files png_files in
      if failed =? 0 then 0 else 1.

End Driver.

End BackgroundsV1.

(** ** compress-backgrounds-v2.py *)

Module BackgroundsV2.

(** The [size == 2] branch. *)
Definition bayer2 : list (list Q) :=
  Np.divide 4 (Np.of_ints [[0; 2];
                           [3; 1]]).

(** The [size == 4] branch. *)
Definition bayer4 : list (list Q) :=
  Np.divide 16 (Np.of_ints [[0;  8;  2;  10];
                            [12; 4;  14; 6 ];
                            [3;  11; 1;  9 ];
                            [15; 7;  13; 5 ]]).

(** The [size == 8] branch; [base] is the result of the recursive call
    [create_bayer_matrix(4)], that is the array already divided by 16. *)
Definition bayer8 : list (list Q) :=
  let base := bayer4 in
  Np.divide 4
    (Np.block (Np.scale 4 base)               (Np.shift 2 (Np.scale 4 base))
              (Np.shift 3 (Np.scale 4 base))  (Np.shift 1 (Np.scale 4 base))).

(** [None] is the [ValueError] of the last branch.  The only recursive
    call has the literal argument 4, so the recursion is unfolded. *)
Definition create_bayer_matrix (size : Z) : option (list (list Q)) :=
  if size =? 2 then Some bayer2
  else if size =? 4 then Some bayer4
  else if size =? 8 then Some bayer8
  else None.

Section Image.
(** The pixel type of the image at hand and the sample [convert('L')]
    gives a pixel (the identity for images of mode L and 1, whose
    pixels are the samples themselves). *)
Context {pixel : Type} (luma : pixel -> Z).

(** [img_array = np.array(gray, dtype=np.float64) / 255.0] *)
Definition to_array (image : list (list pixel)) : list (list Q) :=
  Np.mmap (λ p, inject_Z (luma p) / 255)%Q image.

(** The three lines that tile the Bayer matrix and crop the tiling. *)
Definition threshold_buffer (matrix_size : nat) (bayer_matrix : list (list Q))
    (height width : nat) : list (list Q) :=
  let tile_height := ((height + matrix_size - 1) / matrix_size)%nat in
  let tile_width := ((width + matrix_size - 1) / matrix_size)%nat in
  let tiled_matrix := Np.tile bayer_matrix tile_height tile_width in
  Np.crop_to height width tiled_matrix.

(** [int(pattern_type.replace("bayer", ""))] on the three names that
    reach it. *)
Definition matrix_size_of (pattern_type : string) : Z :=
  if String.eqb pattern_type "bayer2" then 2
  else if String.eqb pattern_type "bayer4" then 4
  else 8.

(** [None] is a raised [ValueError]. *)
Definition apply_ordered_dithering (image : list (list pixel))
    (pattern_type : string) : option (list (list bool)) :=
  let img_array := to_array image in
  let height := length img_array in
  let width := length (default [] (head img_array)) in
  result ←
    (if String.eqb pattern_type "threshold" then
       Some (Np.as_uint8_255 (Np.greater_scalar img_array (1 # 2)))
     else if String.eqb pattern_type "checkerboard" then
       let checker := Np.zeros height width in
       let checker := Np.fill_strided 0 0 2 (1 # 2)%Q checker in
       let checker := Np.fill_strided 1 1 2 (1 # 2)%Q checker in
       Some (Np.as_uint8_255 (Np.greater img_array checker))
     else if bool_decide (pattern_type ∈ ["bayer2"; "bayer4"; "bayer8"]%string) then
       let matrix_size := matrix_size_of pattern_type in
       bayer_matrix ← create_bayer_matrix matrix_size;
       let threshold_matrix :=
         threshold_buffer (Z.to_nat matrix_size) bayer_matrix height width in
       Some (Np.as_uint8_255 (Np.greater img_array threshold_matrix))
     else None);
  Some (Pil.convert_1 result).

(** The image is returned as it came when [getbbox] finds nothing. *)
Definition crop_black_background (image : list (list pixel))
    (tolerance : Z) : list (list pixel) :=
  let gray := Np.mmap luma image in
  let bbox :=
    Pil.getbbox
      (Pil.point (λ p, if bool_decide (tolerance < p) then 255 else 0) gray) in
  match bbox with
  | Some box => Pil.crop box image
  | None => image
  end.

(** The two image steps of [process_png_file], between opening the file
    and saving the result; [tolerance] is left at its default. *)
Definition process_image (img : list (list pixel)) (dither_pattern : string)
    : option (list (list bool)) :=
  let cropped := crop_black_background img 10 in
  apply_ordered_dithering cropped dither_pattern.

End Image.

Section Driver.
(** As in compress-backgrounds.py, with the pattern handed on to
    [process_png_file]. *)
Context (source_exists : bool) (rglob_png : list string)
        (process_png_file : string -> string -> bool).

(** The counters [processed] and [failed] after the loop over the
    files. *)
Definition count_files (pattern : string) (png_files : list string) : Z * Z :=
  foldl (λ '(processed, failed) png_file,
           if process_png_file png_file pattern
           then (processed + 1, failed)
           else (processed, failed + 1))
        (0, 0) png_files.

(** The value [main] returns, which [sys.exit] makes the exit code. *)
Definition main (preview test : bool) (pattern : string) : Z :=
  if preview then 0
  else if negb source_exists then 1
  else
    let png_files := rglob_png in
    if bool_decide (png_files = []) then 1
    else
      let png_files := if test then take 5 png_files else png_files in
      let '(processed, failed) := count_files pattern png_files in
      if failed =? 0 then 0 else 1.

End Driver.

End BackgroundsV2.

(** ** compress-backgrounds-v3.py *)

Module BackgroundsV3.

Definition bayer2 : list (list Q) :=
  Np.divide 4 (Np.of_ints [[0; 2];
                           [3; 1]]).

(** The [size == 4] branch: four strided assignments into a zero array. *)
Definition bayer4 : list (list Q) :=
  let bayer2 := bayer2 in
  let bayer4 := Np.zeros 4 4 in
  let bayer4 := Np.set_strided 0 0 2 (Np.divide 4 bayer2) bayer4 in
  let bayer4 := Np.set_strided 0 1 2 (Np.shift (1 # 2) (Np.divide 4 bayer2)) bayer4 in
  let bayer4 := Np.set_strided 1 0 2 (Np.shift (3 # 4) (Np.divide 4 bayer2)) bayer4 in
  let bayer4 := Np.set_strided 1 1 2 (Np.shift (1 # 4) (Np.divide 4 bayer2)) bayer4 in
  bayer4.

(** One pass of the body of [for i in range(2): for j in range(2)]. *)
Definition bayer8_step (bayer4 : list (list Q)) (bayer8 : list (list Q))
    (ij : nat * nat) : list (list Q) :=
  let '(i, j) := ij in
  Np.set_block (i * 4)%nat ((i + 1) * 4)%nat (j * 4)%nat ((j + 1) * 4)%nat
    (Np.shift (inject_Z (Z.of_nat (i * 2 + j)%nat) / 4) (Np.divide 4 bayer4))
    bayer8.

(** The [size == 8] branch: the array threaded through the two loops. *)
Definition bayer8 : list (list Q) :=
  let bayer4 := bayer4 in
  foldl (bayer8_step bayer4) (Np.zeros 8 8)
        (i ← seq 0 2; j ← seq 0 2; [(i, j)]).

Definition create_bayer_matrix (size : Z) : option (list (list Q)) :=
  if size =? 2 then Some bayer2
  else if size =? 4 then Some bayer4
  else if size =? 8 then Some bayer8
  else None.

Section Image.
(** [floyd_steinberg] is the library's error-diffusion conversion, the
    fallback for every other pattern name. *)
Context {pixel : Type} (luma : pixel -> Z)
        (floyd_steinberg : list (list Z) -> list (list bool)).

(** [img_array = np.array(gray_image, dtype=np.float32) / 255.0] *)
Definition to_array (image : list (list pixel)) : list (list Q) :=
  Np.mmap (λ p, inject_Z (luma p) / 255)%Q image.

(** The lines that tile the threshold matrix and crop the tiling. *)
Definition threshold_buffer (threshold_matrix : list (list Q))
    (height width : nat) : list (list Q) :=
  let matrix_h := length threshold_matrix in
  let matrix_w := length (default [] (head threshold_matrix)) in
  let tiled_matrix :=
    Np.tile threshold_matrix (height / matrix_h + 1)%nat (width / matrix_w + 1)%nat in
  Np.crop_to height width tiled_matrix.

(** The thresholds 0.33 and 0.66 of the diagonal pattern stand for the
    float32 values next to them; no sample p/255 lies in between. *)
Definition apply_ordered_dither (image : list (list pixel))
    (pattern_name : string) : option (list (list bool)) :=
  let gray_image := Np.mmap luma image in
  let img_array := to_array image in
  let height := length img_array in
  let width := length (default [] (head img_array)) in
  let ordered (threshold_matrix : list (list Q)) :=
    let tiled_matrix := threshold_buffer threshold_matrix height width in
    let dithered := Np.as_uint8_255 (Np.greater img_array tiled_matrix) in
    Pil.convert_1 dithered in
  if String.eqb pattern_name "bayer2" then ordered <$> create_bayer_matrix 2
  else if String.eqb pattern_name "bayer4" then ordered <$> create_bayer_matrix 4
  else if String.eqb pattern_name "bayer8" then ordered <$> create_bayer_matrix 8
  else if String.eqb pattern_name "simple" then
    Some (ordered [[1 # 4; 3 # 4];
                   [3 # 4; 1 # 4]]%Q)
  else if String.eqb pattern_name "diagonal" then
    Some (ordered [[0; 33 # 100; 66 # 100];
                   [66 # 100; 0; 33 # 100];
                   [33 # 100; 66 # 100; 0]]%Q)
  else Some (floyd_steinberg gray_image).

Definition crop_black_background (image : list (list pixel))
    : list (list pixel) :=
  let gray := Np.mmap luma image in
  let bbox :=
    Pil.getbbox (Pil.point (λ p, if bool_decide (10 < p) then 255 else 0) gray) in
  match bbox with
  | Some box => Pil.crop box image
  | None => image
  end.

End Image.

Section Driver.
Context (source_exists : bool) (rglob_png : list string)
        (process_png_file : string -> string -> bool).

Definition count_files (pattern_name : string) (png_files : list string)
    : Z * Z :=
  foldl (λ '(processed, failed) png_file,
           if process_png_file png_file pattern_name
           then (processed + 1, failed)
           else (processed, failed + 1))
        (0, 0) png_files.

(** The counters are made anew for each pattern, printed, and dropped;
    the last statement is [return 0].  The fold carries the counters of
    the pattern done last.  This is the value of a run that reaches the
    [return]: [mkdir] and [png_file.stat()] stand outside any [try], and a
    run in which one of them raises (a dangling link among the files, a
    target that cannot be made) ends with a traceback and the exit code 1
    instead; such runs are outside this function. *)
Definition main (test : bool) (patterns : list string) : Z :=
  if negb source_exists then 1
  else
    let png_files := rglob_png in
    if bool_decide (png_files = []) then 1
    else
      let png_files := if test then take 3 png_files else png_files in
      let _ := foldl (λ _ pattern_name, count_files pattern_name png_files)
                     (0, 0) patterns in
      0.

End Driver.

End BackgroundsV3.

(** ** The thresholding lines the two scripts share

    [(img_array > threshold).astype(np.uint8) * 255], handed to
    [Image.fromarray(..., mode='L').convert('1')]: the end of
    [apply_ordered_dithering] and of [apply_ordered_dither]. *)

Definition thresholder (img_array threshold : list (list Q)) : list (list bool) :=
  Pil.convert_1 (Np.as_uint8_255 (Np.greater img_array threshold)).

(** ** create-texture-assets.py: the Bayer builder

    The same function is repeated verbatim in
    create-classic-mac-textures.py. *)

Module TextureAssets.

(** The interpreter's default bound on nested calls. *)
Definition recursion_limit : nat := 1000.

(** The matrix stays integral: nothing is divided.  [depth] is the number
    of nested calls the interpreter still allows; [None] is the
    [RecursionError] that ends a call chain such as 3, 1, 0, 0, ... *)
Fixpoint create_bayer_matrix (depth : nat) (size : Z) : option (list (list Z)) :=
  match depth with
  | O => None
  | S depth' =>
      if size =? 2 then Some [[0; 2]; [3; 1]]
      else
        smaller ← create_bayer_matrix depth' (size / 2);
        Some (Np.block (Np.mmap (λ v, 4 * v) smaller)
                       (Np.mmap (λ v, 4 * v + 2) smaller)
                       (Np.mmap (λ v, 4 * v + 3) smaller)
                       (Np.mmap (λ v, 4 * v + 1) smaller))
  end.

Definition white : Z * Z * Z := (255, 255, 255).
Definition black : Z * Z * Z := (0, 0, 0).

(** [create_bayer_dithered_texture], up to [img.putdata]: the pixel list,
    one [append] per pass of the inner loop.  [density * 64] is a float
    product by a power of two, exact for every density in use; [None] is a
    [RecursionError] of the builder or an [IndexError] of
    [bayer_matrix[y, x]].  With [invert] left at [False] this is also the
    loop of [create_bayer_variations] in create-classic-mac-textures.py. *)
Definition create_bayer_dithered_texture (depth : nat) (density : Q)
    (invert : bool) : option (list (Z * Z * Z)) :=
  bayer_matrix ← create_bayer_matrix depth 8;
  let threshold := int_of_float (density * 64) in
  foldl (λ acc yx,
           let '(y, x) := yx in
           pixels ← acc;
           bayer_value ← Np.cell bayer_matrix y x;
           let pixel :=
             if invert
             then (if bool_decide (threshold ≤ bayer_value) then black else white)
             else (if bool_decide (threshold ≤ bayer_value) then white else black) in
           Some (pixels ++ [pixel]))
        (Some [])
        (y ← seq 0 8; x ← seq 0 8; [(y, x)]).

(** [create_checkerboard_texture], up to [img.putdata]. *)
Definition create_checkerboard_texture (color1 color2 : Z * Z * Z)
    : list (Z * Z * Z) :=
  foldl (λ pixels yx,
           let '(y, x) := yx in
           if bool_decide ((x + y) `mod` 2 = 0)
           then pixels ++ [color1]
           else pixels ++ [color2])
        []
        (y ← seqZ 0 8; x ← seqZ 0 8; [(y, x)]).

End TextureAssets.

(** ** create-classic-mac-textures.py *)

Module ClassicMac.

(** The integer assembled from the bits of [p] and [q], before the
    division by 64. *)
Definition table_value (p : Z) : Z :=
  let q := Z.lxor p (Z.shiftr p 3) in
  Z.lor (Z.lor (Z.lor (Z.lor (Z.lor
    (Z.shiftr (Z.land p 4) 2) (Z.shiftr (Z.land q 4) 1))
    (Z.shiftl (Z.land p 2) 1)) (Z.shiftl (Z.land q 2) 2))
    (Z.shiftl (Z.land p 1) 4)) (Z.shiftl (Z.land q 1) 5).

(** The list grown by [table.append(value)] for [p] in [range(64)]. *)
Definition create_classic_mac_threshold_table : list Q :=
  foldl (λ table p, table ++ [(inject_Z (table_value p) / 64)%Q]) [] (seqZ 0 64).

Definition white : Z * Z * Z := (255, 255, 255).
Definition black : Z * Z * Z := (0, 0, 0).

(** The index [(x & 7) + ((y & 7) << 3)] into the table. *)
Definition table_index (x y : Z) : Z :=
  Z.land x 7 + Z.shiftl (Z.land y 7) 3.

(** The pixel list handed to [img.putdata], one [append] per pass of the
    inner loop; [None] is an [IndexError] of the table lookup. *)
Definition create_mac_dithered_pattern (lightness : Q) (invert : bool)
    : option (list (Z * Z * Z)) :=
  let threshold_table := create_classic_mac_threshold_table in
  foldl (λ acc yx,
           let '(y, x) := yx in
           pixels ← acc;
           map_value ← threshold_table !! Z.to_nat (table_index x y);
           let px_white := bool_decide (map_value < lightness)%Q in
           let px_white := if invert then negb px_white else px_white in
           Some (pixels ++ [if px_white then white else black]))
        (Some [])
        (y ← seqZ 0 8; x ← seqZ 0 8; [(y, x)]).

(** The positions the two loops of [create_mac_dithered_pattern] visit,
    in order. *)
Definition scan_order : list (Z * Z) := y ← seqZ 0 8; x ← seqZ 0 8; [(y, x)].

(** The colour the loop body appends at position [(y, x)]. *)
Definition pixel_at (lightness : Q) (invert : bool) (yx : Z * Z) : Z * Z * Z :=
  let map_value :=
    default 0%Q (create_classic_mac_threshold_table
                   !! Z.to_nat (table_index yx.2 yx.1)) in
  let px_white := bool_decide (map_value < lightness)%Q in
  let px_white := if invert then negb px_white else px_white in
  if px_white then white else black.

(** The pixel list of one pass of the loop over [shadow_densities] in
    [create_shadow_patterns]. *)
Definition shadow_gray : Z * Z * Z := (128, 128, 128).

Definition create_shadow_pattern (lightness : Q) : option (list (Z * Z * Z)) :=
  let threshold_table := create_classic_mac_threshold_table in
  foldl (λ acc yx,
           let '(y, x) := yx in
           pixels ← acc;
           map_value ← threshold_table !! Z.to_nat (table_index x y);
           let px_dark := bool_decide (lightness < map_value)%Q in
           Some (pixels ++ [if px_dark then black else shadow_gray]))
        (Some [])
        (y ← seqZ 0 8; x ← seqZ 0 8; [(y, x)]).

End ClassicMac.

(** ** The reference recursion of the specification *)

Module BayerSpec.

(** The integer levels of Bayer(N) for N = 2 * 2^halvings: the literal
    [[0,2],[3,1]], then the four tiles [[4B, 4B+2],[4B+3, 4B+1]] of the
    levels B of the matrix of half the size. *)
Fixpoint levels (halvings : nat) : list (list Z) :=
  match halvings with
  | O => [[0; 2]; [3; 1]]
  | S h =>
      let B := levels h in
      Np.block (Np.mmap (λ v, 4 * v) B)     (Np.mmap (λ v, 4 * v + 2) B)
               (Np.mmap (λ v, 4 * v + 3) B) (Np.mmap (λ v, 4 * v + 1) B)
  end.

Definition halvings_of (N : Z) : nat := Z.to_nat (Z.log2 N - 1).

(** Bayer(N): the levels divided by N². *)
Definition Bayer (N : Z) : list (list Q) :=
  Np.divide (inject_Z (N * N)) (Np.of_ints (levels (halvings_of N))).

(** Two float arrays with equal cells. *)
Definition same_cells (a b : list (list Q)) : Prop :=
  Forall2 (Forall2 Qeq) a b.

(** Every cell in [0, 1). *)
Definition normalized (m : list (list Q)) : Prop :=
  Forall (Forall (λ v, 0 <= v ∧ v < 1)%Q) m.

(** A builder's result is the reference matrix of size N. *)
Definition returns_reference (result : option (list (list Q))) (N : Z) : Prop :=
  ∃ m, result = Some m ∧ same_cells m (Bayer N) ∧ normalized m.

(** Each level k/N², 0 <= k < N², in exactly one cell. *)
Definition covers_levels (m : list (list Q)) (N : Z) : Prop :=
  Forall (λ k, Np.count (inject_Z k / inject_Z (N * N)) m = 1%nat)
         (seqZ 0 (N * N)).

(** The same for a matrix still holding the integer levels. *)
Definition covers_int_levels (m : list (list Z)) (N : Z) : Prop :=
  Forall (λ k, Np.count_int k m = 1%nat) (seqZ 0 (N * N)).

(** The matrix of compress-backgrounds-v3.py at size 8: the levels B of
    Bayer(4) in four quadrants [[B, B+16],[B+32, B+48]], over 64. *)
Definition quadrant_offset_8 : list (list Q) :=
  let B := levels 1 in
  Np.divide 64
    (Np.of_ints (Np.block B (Np.mmap (λ v, v + 16) B)
                          (Np.mmap (λ v, v + 32) B) (Np.mmap (λ v, v + 48) B))).

#[global] Instance same_cells_dec a b : Decision (same_cells a b).
Proof. unfold same_cells. apply _. Defined.

#[global] Instance normalized_dec m : Decision (normalized m).
Proof. unfold normalized. apply _. Defined.

#[global] Instance covers_levels_dec m N : Decision (covers_levels m N).
Proof. unfold covers_levels. apply _. Defined.

#[global] Instance covers_int_levels_dec m N : Decision (covers_int_levels m N).
Proof. unfold covers_int_levels. apply _. Defined.

End BayerSpec.

(** ** The halftone table as the specification words it *)

Module MacSpec.

(** q = p XOR (p >> 3), then
    ((p&4)>>2) | ((q&4)>>1) | ((p&2)<<1) | ((q&2)<<2) | ((p&1)<<4) | ((q&1)<<5) *)
Definition interleave (p : Z) : Z :=
  let q := Z.lxor p (p ≫ 3) in
  Z.lor (Z.land p 4 ≫ 2)
    (Z.lor (Z.land q 4 ≫ 1)
       (Z.lor (Z.land p 2 ≪ 1)
          (Z.lor (Z.land q 2 ≪ 2)
             (Z.lor (Z.land p 1 ≪ 4) (Z.land q 1 ≪ 5))))).

(** The index whose table value is [v]: the bits of [v] taken apart
    again, p2 = v0, p1 = v2, p0 = v4 and p5 p4 p3 = p2 p1 p0 XOR v1 v3 v5. *)
Definition index_of (v : Z) : Z :=
  let bit (n : Z) := Z.b2z (Z.testbit v n) in
  let lo := Z.lor (bit 0 ≪ 2) (Z.lor (bit 2 ≪ 1) (bit 4)) in
  let q := Z.lor (bit 1 ≪ 2) (Z.lor (bit 3 ≪ 1) (bit 5)) in
  Z.lor (Z.lxor lo q ≪ 3) lo.

End MacSpec.

(** ** The pixels the cropper keeps *)

(** The pixel at row [y], column [x] is brighter than the tolerance. *)
Definition bright {pixel : Type} (luma : pixel -> Z) (tolerance : Z)
    (image : list (list pixel)) (y x : nat) : Prop :=
  ∃ p, Np.cell image y x = Some p ∧ tolerance < luma p.

(** [(x0, y0, x1, y1)] is the smallest box around the bright pixels: it
    holds them all and each of its four sides meets one. *)
Definition tight_box {pixel : Type} (luma : pixel -> Z) (tolerance : Z)
    (image : list (list pixel)) (box : nat * nat * nat * nat) : Prop :=
  let '(x0, y0, x1, y1) := box in
  (∀ y x, bright luma tolerance image y x -> (x0 ≤ x < x1)%nat ∧ (y0 ≤ y < y1)%nat) ∧
  (∃ y, bright luma tolerance image y x0) ∧
  (∃ y, bright luma tolerance image y (x1 - 1)) ∧
  (∃ x, bright luma tolerance image y0 x) ∧
  (∃ x, bright luma tolerance image (y1 - 1) x).

(** An 8x8 image of mode L, black but for the sample 200 at (3, 3). *)
Definition lone_pixel_image : list (list Z) :=
  <[3%nat := [0; 0; 0; 200; 0; 0; 0; 0]]> (replicate 8 (replicate 8 0)).

(** ** The 16x16 scenario *)

(** The 16x16 image of mode L with every sample [p]. *)
Definition uniform_image (p : Z) : list (list Z) := replicate 16 (replicate 16 p).

(** The 4x4 tile in tile row [ty] and tile column [tx] of an image. *)
Definition tile_at {A : Type} (m : list (list A)) (ty tx : nat) : list (list A) :=
  Pil.crop (4 * tx, 4 * ty, 4 * tx + 4, 4 * ty + 4)%nat m.

(** The number of pixels of colour [b] (white is [true]). *)
Definition count_pixels (b : bool) (m : list (list bool)) : nat :=
  length (filter (λ c, c = b) (Np.cells m)).

(** Each of the sixteen 4x4 tiles of a 16x16 binary image has [whites]
    white and [blacks] black pixels. *)
Definition tiles_filled (out : list (list bool)) (whites blacks : nat) : Prop :=
  Forall (λ ty,
    Forall (λ tx, count_pixels true (tile_at out ty tx) = whites ∧
                  count_pixels false (tile_at out ty tx) = blacks)
           (seq 0 4))
    (seq 0 4).

#[global] Instance tiles_filled_dec out whites blacks :
  Decision (tiles_filled out whites blacks).
Proof. unfold tiles_filled. apply _. Defined.


Definition half_tile_and_one : list (list bool) :=
  [[true;  true;  true;  false];
   [false; true;  false; true ];
   [true;  false; true;  false];
   [false; true;  false; true ]].

(** ** The threshold a pattern of compress-backgrounds-v2.py puts at a pixel *)

(** 1/2 everywhere for "threshold"; for "checkerboard" 1/2 where row and
    column are both even or both odd and 0 elsewhere; for "bayerN" the
    cell (y mod N, x mod N) of the builder's matrix.  No threshold for any
    other name. *)
Definition v2_threshold_at (pattern_type : string) (y x : nat) : option Q :=
  if String.eqb pattern_type "threshold" then Some (1 # 2)
  else if String.eqb pattern_type "checkerboard" then
    Some (if bool_decide (y mod 2 = x mod 2)%nat then 1 # 2 else 0)%Q
  else if String.eqb pattern_type "bayer2" then
    Np.cell BackgroundsV2.bayer2 (y mod 2) (x mod 2)
  else if String.eqb pattern_type "bayer4" then
    Np.cell BackgroundsV2.bayer4 (y mod 4) (x mod 4)
  else if String.eqb pattern_type "bayer8" then
    Np.cell BackgroundsV2.bayer8 (y mod 8) (x mod 8)
  else None.

(** The five pattern names [apply_ordered_dithering] knows. *)
Definition v2_patterns : list string :=
  ["threshold"; "checkerboard"; "bayer2"; "bayer4"; "bayer8"]%string.

(** A 1x2 image of mode L. *)
Definition two_pixel_image : list (list Z) := [[100; 200]].

(** The 4x4 tile in which the cells of Bayer(4) with a level below [n] are
    white. *)
Definition fill_tile (n : Z) : list (list bool) :=
  Np.mmap (λ k, bool_decide (k < n)) (BayerSpec.levels 1).

(** The threshold matrix [apply_ordered_dither] of
    compress-backgrounds-v3.py picks for a pattern name; no matrix for the
    names that go to the error-diffusion fallback. *)
Definition v3_threshold_matrix (pattern_name : string) : option (list (list Q)) :=
  if String.eqb pattern_name "bayer2" then Some BackgroundsV3.bayer2
  else if String.eqb pattern_name "bayer4" then Some BackgroundsV3.bayer4
  else if String.eqb pattern_name "bayer8" then Some BackgroundsV3.bayer8
  else if String.eqb pattern_name "simple" then
    Some [[1 # 4; 3 # 4]; [3 # 4; 1 # 4]]%Q
  else if String.eqb pattern_name "diagonal" then
    Some [[0; 33 # 100; 66 # 100]; [66 # 100; 0; 33 # 100]; [33 # 100; 66 # 100; 0]]%Q
  else None.

(** ** Counting pixels of a texture *)

(** The number of pixels of colour [c] in a pixel list. *)
Definition count_colour (c : Z * Z * Z) (pixels : list (Z * Z * Z)) : nat :=
  length (filter (λ px, px = c) pixels).

(** An integer cut to the range 0 .. 64, as a count. *)
Definition clamp64 (n : Z) : nat := Z.to_nat (Z.max 0 (Z.min 64 n)).

(** ** What thresholding two buffers means *)

(** [out] is an h x w binary image whose pixel (y, x) is white exactly
    when the sample of [img_array] there is above the cell of [threshold]
    there; a sample equal to its threshold is black. *)
Definition strictly_thresholded (h w : nat) (img_array threshold : list (list Q))
    (out : list (list bool)) : Prop :=
  Np.has_shape h w out ∧
  ∀ y x, (y < h)%nat -> (x < w)%nat ->
    ∃ v t white,
      Np.cell img_array y x = Some v ∧ Np.cell threshold y x = Some t ∧
      Np.cell out y x = Some white ∧
      (white = true ↔ (t < v)%Q) ∧
      (v == t -> white = false).


(** * Properties *)

(** Closes a decidable goal by evaluation. *)
Ltac by_evaluation := apply (bool_decide_unpack _); vm_compute; reflexivity.

Section BayerBuilders.
Import BayerSpec.

Lemma v2_bayer2_reference : returns_reference (BackgroundsV2.create_bayer_matrix 2) 2.
Proof. eexists; split; [reflexivity|]. split; by_evaluation. Qed.

Lemma v2_bayer4_reference : returns_reference (BackgroundsV2.create_bayer_matrix 4) 4.
Proof. eexists; split; [reflexivity|]. split; by_evaluation. Qed.

Lemma v3_bayer2_reference : returns_reference (BackgroundsV3.create_bayer_matrix 2) 2.
Proof. eexists; split; [reflexivity|]. split; by_evaluation. Qed.

Lemma v3_bayer4_reference : returns_reference (BackgroundsV3.create_bayer_matrix 4) 4.
Proof. eexists; split; [reflexivity|]. split; by_evaluation. Qed.

Lemma v3_bayer8_quadrants :
  same_cells BackgroundsV3.bayer8 quadrant_offset_8 ∧ normalized BackgroundsV3.bayer8.
Proof. split; by_evaluation. Qed.

Lemma v3_bayer8_not_reference : ¬ returns_reference (BackgroundsV3.create_bayer_matrix 8) 8.
Proof.
  intros (m & Hm & Hsame & _). injection Hm as <-.
  revert Hsame. apply (bool_decide_eq_false_1 _). vm_compute. reflexivity.
Qed.

(** The texture builder needs one nested call per halving and is
    indifferent to any budget beyond that. *)
Lemma texture_bayer_levels (spare : nat) :
  TextureAssets.create_bayer_matrix (1 + spare) 2 = Some (levels 0) ∧
  TextureAssets.create_bayer_matrix (2 + spare) 4 = Some (levels 1) ∧
  TextureAssets.create_bayer_matrix (3 + spare) 8 = Some (levels 2).
Proof. repeat split; reflexivity. Qed.

Lemma levels_cover :
  covers_int_levels (levels 0) 2 ∧ covers_int_levels (levels 1) 4 ∧
  covers_int_levels (levels 2) 8.
Proof. repeat split; by_evaluation. Qed.

Lemma v2_small_cover :
  covers_levels BackgroundsV2.bayer2 2 ∧ covers_levels BackgroundsV2.bayer4 4.
Proof. split; by_evaluation. Qed.

Lemma v3_cover :
  covers_levels BackgroundsV3.bayer2 2 ∧ covers_levels BackgroundsV3.bayer4 4 ∧
  covers_levels BackgroundsV3.bayer8 8.
Proof. repeat split; by_evaluation. Qed.

Lemma v2_v3_agree_below_8 :
  same_cells BackgroundsV2.bayer2 BackgroundsV3.bayer2 ∧
  same_cells BackgroundsV2.bayer4 BackgroundsV3.bayer4.
Proof. split; by_evaluation. Qed.

(** C1, at the input where the code departs from it: at size 8 the
    builder of compress-backgrounds-v2.py returns an 8x8 array in which
    the level 1/64 is in no cell, the value 1/2 is in three cells and the
    value 27/16, outside [0, 1), is in one; the levels k/64 are not each
    in exactly one cell. *)
Theorem C1_v2_bayer8_levels_not_covered :
  ∃ m, BackgroundsV2.create_bayer_matrix 8 = Some m ∧
       Np.has_shape 8 8 m ∧
       Np.count (1 # 64) m = 0%nat ∧
       Np.count (1 # 2) m = 3%nat ∧
       Np.count (27 # 16) m = 1%nat ∧
       ¬ covers_levels m 8.
Proof.
  eexists; split; [reflexivity|].
  split; [by_evaluation|].
  do 3 (split; [reflexivity|]).
  apply (bool_decide_eq_false_1 _). vm_compute. reflexivity.
Qed.

(** C2 as stated fails: at size 2 the builder of create-texture-assets.py
    returns the integer levels [[0,2],[3,1]], not the reference matrix
    [[0,2],[3,1]]/4, and its cells 2 and 3 are outside [0, 1). *)
Lemma C2_texture_builder_not_normalized :
  ¬ returns_reference
      (Np.of_ints <$> TextureAssets.create_bayer_matrix TextureAssets.recursion_limit 2) 2.
Proof.
  intros (m & Hm & _ & Hnorm). injection Hm as <-.
  revert Hnorm. apply (bool_decide_eq_false_1 _). vm_compute. reflexivity.
Qed.

(** C2, amended.  The builders of compress-backgrounds-v2.py and
    compress-backgrounds-v3.py return the reference matrix at sizes 2 and
    4; at size 8 the builder of v3 returns the quadrant-offset matrix
    [[B, B+16],[B+32, B+48]]/64 over the levels B of Bayer(4), whose cells
    are in [0, 1) and which is not the reference matrix; the builder of
    create-texture-assets.py returns, at sizes 2, 4 and 8 and with any
    recursion budget of at least 1, 2 and 3 calls, the integer levels of
    the reference recursion, not divided by N², and dividing them by N²
    gives the reference matrix with every cell in [0, 1). *)
Theorem C2_builders_against_reference (spare : nat) :
  (returns_reference (BackgroundsV2.create_bayer_matrix 2) 2 ∧
   returns_reference (BackgroundsV2.create_bayer_matrix 4) 4) ∧
  (returns_reference (BackgroundsV3.create_bayer_matrix 2) 2 ∧
   returns_reference (BackgroundsV3.create_bayer_matrix 4) 4 ∧
   ∃ m, BackgroundsV3.create_bayer_matrix 8 = Some m ∧
        same_cells m quadrant_offset_8 ∧ normalized m ∧
        ¬ same_cells m (Bayer 8)) ∧
  (TextureAssets.create_bayer_matrix (1 + spare) 2 = Some (levels 0) ∧
   TextureAssets.create_bayer_matrix (2 + spare) 4 = Some (levels 1) ∧
   TextureAssets.create_bayer_matrix (3 + spare) 8 = Some (levels 2) ∧
   Forall (λ N, normalized (Bayer N)) [2; 4; 8]).
Proof.
  split; [split; [apply v2_bayer2_reference | apply v2_bayer4_reference]|].
  split.
  - split; [apply v3_bayer2_reference|].
    split; [apply v3_bayer4_reference|].
    eexists; split; [reflexivity|].
    destruct v3_bayer8_quadrants as [Hq Hn].
    split; [exact Hq|]. split; [exact Hn|].
    apply (bool_decide_eq_false_1 _). vm_compute. reflexivity.
  - destruct (texture_bayer_levels spare) as (H2 & H4 & H8).
    split; [exact H2|]. split; [exact H4|]. split; [exact H8|].
    by_evaluation.
Qed.

(** C8: the builders of compress-backgrounds-v2.py and
    compress-backgrounds-v3.py both return a matrix at size 8, and the
    two differ in cell (0, 1): 1/2 in the first, 1/8 in the second. *)
Theorem C8_v2_v3_differ_at_8 :
  ∃ a b va vb,
    BackgroundsV2.create_bayer_matrix 8 = Some a ∧
    BackgroundsV3.create_bayer_matrix 8 = Some b ∧
    Np.cell a 0 1 = Some va ∧ Np.cell b 0 1 = Some vb ∧
    va == 1 # 2 ∧ vb == 1 # 8 ∧ ¬ va == vb.
Proof.
  do 4 eexists.
  split; [reflexivity|]. split; [reflexivity|].
  split; [reflexivity|]. split; [reflexivity|].
  split; [by_evaluation|]. split; [by_evaluation|].
  apply (bool_decide_eq_false_1 _). vm_compute. reflexivity.
Qed.

End BayerBuilders.

(** ** Loops that append *)

Section AppendLoops.
Context {A B : Type}.

(** A loop whose body is [acc.append(f(x))] maps [f] over its range. *)
Lemma foldl_append (f : A -> B) (l : list A) (acc : list B) :
  foldl (λ acc x, acc ++ [f x]) acc l = acc ++ (f <$> l).
Proof.
  revert acc. induction l as [|x l IH]; intros acc; simpl.
  - by rewrite app_nil_r.
  - rewrite IH. by rewrite <- app_assoc.
Qed.

(** The same when the body first looks something up, may fail there,
    and the lookup succeeds on the whole range. *)
Lemma foldl_append_lookup {C : Type} (step : option (list B) -> A -> option (list B))
    (look : A -> option C) (g : A -> C -> B) (h : A -> B)
    (l : list A) (acc : list B) :
  (∀ acc x, step acc x = (pixels ← acc; c ← look x; Some (pixels ++ [g x c]))) ->
  Forall (λ x, ∃ c, look x = Some c ∧ g x c = h x) l ->
  foldl step (Some acc) l = Some (acc ++ (h <$> l)).
Proof.
  intros Hstep. revert acc. induction l as [|x l IH]; intros acc Hall; simpl.
  - by rewrite app_nil_r.
  - apply Forall_cons in Hall as [(c & Hc & Hg) Hall].
    rewrite Hstep. simpl. rewrite Hc. simpl. rewrite Hg.
    rewrite IH by done. by rewrite <- app_assoc.
Qed.

End AppendLoops.

Section ClassicMacTable.
Import ClassicMac MacSpec.

Lemma table_is_map :
  create_classic_mac_threshold_table
  = (λ p, inject_Z (table_value p) / 64)%Q <$> seqZ 0 64.
Proof. unfold create_classic_mac_threshold_table. by rewrite foldl_append. Qed.

Lemma table_length : length create_classic_mac_threshold_table = 64%nat.
Proof. reflexivity. Qed.

Lemma table_lookup (p : Z) :
  0 ≤ p < 64 ->
  create_classic_mac_threshold_table !! Z.to_nat p
  = Some (inject_Z (table_value p) / 64)%Q.
Proof.
  intros Hp. rewrite table_is_map, list_lookup_fmap.
  rewrite lookup_seqZ_lt by lia. rewrite Z2Nat.id by lia. reflexivity.
Qed.

(** On the 64 indices the code's expression is the documented one, stays
    below 64, and [index_of] undoes it. *)
Lemma table_value_facts (p : Z) :
  0 ≤ p < 64 ->
  table_value p = interleave p ∧ 0 ≤ table_value p < 64 ∧
  index_of (table_value p) = p.
Proof.
  intros Hp.
  assert (Hall : Forall (λ p, table_value p = interleave p ∧
                              0 ≤ table_value p < 64 ∧
                              index_of (table_value p) = p) (seqZ 0 64))
    by by_evaluation.
  rewrite Forall_forall in Hall. apply Hall, elem_of_seqZ. lia.
Qed.

Lemma index_of_facts (k : Z) :
  0 ≤ k < 64 -> 0 ≤ index_of k < 64 ∧ table_value (index_of k) = k.
Proof.
  intros Hk.
  assert (Hall : Forall (λ k, 0 ≤ index_of k < 64 ∧
                              table_value (index_of k) = k) (seqZ 0 64))
    by by_evaluation.
  rewrite Forall_forall in Hall. apply Hall, elem_of_seqZ. lia.
Qed.

Lemma level_eq (a b : Z) : (inject_Z a / 64 == inject_Z b / 64)%Q ↔ a = b.
Proof.
  unfold Qeq, Qdiv, Qmult, Qinv, inject_Z. simpl. lia.
Qed.

Lemma scan_order_lookup (x y : Z) :
  0 ≤ x < 8 -> 0 ≤ y < 8 ->
  scan_order !! Z.to_nat (y * 8 + x) = Some (y, x) ∧
  table_index x y = y * 8 + x.
Proof.
  intros Hx Hy.
  assert (Hall : Forall (λ y, Forall (λ x,
             scan_order !! Z.to_nat (y * 8 + x) = Some (y, x) ∧
             table_index x y = y * 8 + x) (seqZ 0 8)) (seqZ 0 8))
    by by_evaluation.
  rewrite Forall_forall in Hall.
  specialize (Hall y). rewrite Forall_forall in Hall.
  apply Hall; apply elem_of_seqZ; lia.
Qed.

Lemma pattern_is_map (lightness : Q) (invert : bool) :
  create_mac_dithered_pattern lightness invert
  = Some (pixel_at lightness invert <$> scan_order).
Proof.
  unfold create_mac_dithered_pattern.
  change (Some (pixel_at lightness invert <$> scan_order))
    with (Some ([] ++ (pixel_at lightness invert <$> scan_order))).
  apply (foldl_append_lookup _
           (λ yx, create_classic_mac_threshold_table
                    !! Z.to_nat (table_index yx.2 yx.1))
           (λ yx map_value,
              let px_white := bool_decide (map_value < lightness)%Q in
              let px_white := if invert then negb px_white else px_white in
              if px_white then white else black)).
  - intros acc [y x]. reflexivity.
  - assert (Hall : Forall (λ yx, is_Some (create_classic_mac_threshold_table
                                   !! Z.to_nat (table_index yx.2 yx.1))) scan_order)
      by by_evaluation.
    eapply Forall_impl; [exact Hall|].
    intros yx [c Hc]. exists c. split; [exact Hc|].
    unfold pixel_at. by rewrite Hc.
Qed.

(** C3: the table has 64 entries and entry p is the documented
    interleaving of the bits of p and q = p XOR (p >> 3), over 64; the
    pattern generator returns a pixel list in which the pixel of (x, y),
    at place y*8 + x, is white exactly when the lightness exceeds the
    table entry at index (x & 7) + ((y & 7) << 3) (the other way round
    when inverted); the entries at 0, 7, 56 and 63 are 0/64, 63/64, 42/64
    and 21/64, as the formula gives. *)
Theorem C3_mac_table_formula (p x y : Z) (lightness : Q) (invert : bool) :
  0 ≤ p < 64 -> 0 ≤ x < 8 -> 0 ≤ y < 8 ->
  length create_classic_mac_threshold_table = 64%nat ∧
  create_classic_mac_threshold_table !! Z.to_nat p
    = Some (inject_Z (interleave p) / 64)%Q ∧
  (∃ pixels map_value,
      create_mac_dithered_pattern lightness invert = Some pixels ∧
      create_classic_mac_threshold_table
        !! Z.to_nat (Z.land x 7 + (Z.land y 7 ≪ 3)) = Some map_value ∧
      pixels !! Z.to_nat (y * 8 + x)
        = Some (if xorb (bool_decide (map_value < lightness)%Q) invert
                then white else black)) ∧
  (interleave 0 = 0 ∧ interleave 7 = 63 ∧ interleave 56 = 42 ∧ interleave 63 = 21) ∧
  (create_classic_mac_threshold_table !! 0%nat = Some (inject_Z 0 / 64)%Q ∧
   create_classic_mac_threshold_table !! 7%nat = Some (inject_Z 63 / 64)%Q ∧
   create_classic_mac_threshold_table !! 56%nat = Some (inject_Z 42 / 64)%Q ∧
   create_classic_mac_threshold_table !! 63%nat = Some (inject_Z 21 / 64)%Q).
Proof.
  intros Hp Hx Hy.
  split; [apply table_length|].
  split.
  { rewrite table_lookup by done.
    by destruct (table_value_facts p Hp) as (-> & _). }
  split.
  { destruct (scan_order_lookup x y Hx Hy) as [Hscan Hidx].
    assert (Hrange : 0 ≤ table_index x y < 64) by (rewrite Hidx; lia).
    exists (pixel_at lightness invert <$> scan_order),
           (inject_Z (table_value (table_index x y)) / 64)%Q.
    split; [apply pattern_is_map|].
    split; [apply (table_lookup _ Hrange)|].
    rewrite list_lookup_fmap, Hscan. simpl. unfold pixel_at. simpl.
    rewrite (table_lookup _ Hrange). simpl.
    by destruct invert, (bool_decide _). }
  split; [by repeat split|].
  by repeat split.
Qed.

Lemma C3_mac_table_formula_witness :
  length create_classic_mac_threshold_table = 64%nat ∧
  create_classic_mac_threshold_table !! Z.to_nat 56
    = Some (inject_Z (interleave 56) / 64)%Q ∧
  (∃ pixels map_value,
      create_mac_dithered_pattern (1 # 2) false = Some pixels ∧
      create_classic_mac_threshold_table
        !! Z.to_nat (Z.land 3 7 + (Z.land 5 7 ≪ 3)) = Some map_value ∧
      pixels !! Z.to_nat (5 * 8 + 3)
        = Some (if xorb (bool_decide (map_value < 1 # 2)%Q) false
                then white else black)) ∧
  (interleave 0 = 0 ∧ interleave 7 = 63 ∧ interleave 56 = 42 ∧ interleave 63 = 21) ∧
  (create_classic_mac_threshold_table !! 0%nat = Some (inject_Z 0 / 64)%Q ∧
   create_classic_mac_threshold_table !! 7%nat = Some (inject_Z 63 / 64)%Q ∧
   create_classic_mac_threshold_table !! 56%nat = Some (inject_Z 42 / 64)%Q ∧
   create_classic_mac_threshold_table !! 63%nat = Some (inject_Z 21 / 64)%Q).
Proof. apply (C3_mac_table_formula 56 3 5 (1 # 2) false); lia. Defined.

(** C10: every level k/64, 0 <= k < 64, is the table entry of exactly one
    index p in [0, 64), and every entry of the table is in [0, 1). *)
Theorem C10_mac_table_permutation (k : Z) :
  0 ≤ k < 64 ->
  (∃ p, 0 ≤ p < 64 ∧
        (∃ v, create_classic_mac_threshold_table !! Z.to_nat p = Some v ∧
              v == inject_Z k / 64) ∧
        ∀ p', 0 ≤ p' < 64 ->
              (∃ v, create_classic_mac_threshold_table !! Z.to_nat p' = Some v ∧
                    v == inject_Z k / 64) ->
              p' = p) ∧
  Forall (λ v, 0 <= v ∧ v < 1)%Q create_classic_mac_threshold_table.
Proof.
  intros Hk. split; [|by_evaluation].
  destruct (index_of_facts k Hk) as [Hrange Hval].
  exists (index_of k). split; [exact Hrange|]. split.
  - eexists. split; [apply (table_lookup _ Hrange)|]. by rewrite Hval.
  - intros p' Hp' (v & Hv & Heq).
    rewrite (table_lookup _ Hp') in Hv. injection Hv as <-.
    apply (proj1 (level_eq (table_value p') k)) in Heq.
    destruct (table_value_facts p' Hp') as (_ & _ & Hinv).
    by rewrite <- Hinv, Heq.
Qed.

Lemma C10_mac_table_permutation_witness :
  (∃ p, 0 ≤ p < 64 ∧
        (∃ v, create_classic_mac_threshold_table !! Z.to_nat p = Some v ∧
              v == inject_Z 42 / 64) ∧
        ∀ p', 0 ≤ p' < 64 ->
              (∃ v, create_classic_mac_threshold_table !! Z.to_nat p' = Some v ∧
                    v == inject_Z 42 / 64) ->
              p' = p) ∧
  Forall (λ v, 0 <= v ∧ v < 1)%Q create_classic_mac_threshold_table.
Proof. apply (C10_mac_table_permutation 42). lia. Defined.

End ClassicMacTable.

(** ** Arrays: lookups of the numpy operations *)

(** A list repeated [n] times is read cyclically. *)
Lemma lookup_join_replicate {B : Type} (l : list B) (n i : nat) :
  (i < n * length l)%nat ->
  mjoin (replicate n l) !! i = l !! (i mod length l)%nat.
Proof.
  revert i. induction n as [|n IH]; intros i Hi; [lia|].
  simpl. destruct (decide (i < length l)%nat) as [Hlt|Hge].
  - rewrite lookup_app_l by done. by rewrite Nat.mod_small.
  - rewrite lookup_app_r by lia. rewrite IH by (simpl in Hi; lia).
    f_equal.
    replace i with ((i - length l) + 1 * length l)%nat at 2 by lia.
    by rewrite Nat.Div0.mod_add.
Qed.

Lemma length_join_replicate {B : Type} (l : list B) (n : nat) :
  length (mjoin (replicate n l)) = (n * length l)%nat.
Proof. induction n as [|n IH]; simpl; [done|]. rewrite length_app. lia. Qed.

Section ArrayFacts.
Context {A : Type}.
Implicit Types (m : list (list A)) (row : list A).

Lemma cell_Some m y x v :
  Np.cell m y x = Some v ↔ ∃ row, m !! y = Some row ∧ row !! x = Some v.
Proof.
  unfold Np.cell. destruct (m !! y) as [row|]; simpl.
  - split; [by exists row | by intros (? & [= <-] & ?)].
  - split; [done | by intros (? & ? & _)].
Qed.

Lemma cell_is_Some h w m y x :
  Np.has_shape h w m -> (y < h)%nat -> (x < w)%nat -> is_Some (Np.cell m y x).
Proof.
  intros [Hlen Hrows] Hy Hx.
  destruct (lookup_lt_is_Some_2 m y) as [row Hrow]; [lia|].
  rewrite Forall_lookup in Hrows. specialize (Hrows _ _ Hrow).
  destruct (lookup_lt_is_Some_2 row x) as [v Hv]; [lia|].
  exists v. apply cell_Some. eauto.
Qed.

Lemma cell_bounds (h w : nat) (m : list (list A)) (y x : nat) (v : A) :
  Np.has_shape h w m -> Np.cell m y x = Some v -> (y < h)%nat ∧ (x < w)%nat.
Proof.
  intros [Hlen Hrows] Hcell. apply cell_Some in Hcell as (row & Hrow & Hv).
  rewrite Forall_lookup in Hrows. specialize (Hrows _ _ Hrow). simpl in Hrows.
  apply lookup_lt_Some in Hrow, Hv. lia.
Qed.

(** Two arrays of one shape with the same cells are the same array. *)
Lemma array_ext h w m1 m2 :
  Np.has_shape h w m1 -> Np.has_shape h w m2 ->
  (∀ y x, (y < h)%nat -> (x < w)%nat -> Np.cell m1 y x = Np.cell m2 y x) ->
  m1 = m2.
Proof.
  intros [Hl1 Hr1] [Hl2 Hr2] Hcells.
  apply list_eq_same_length with h; [done..|].
  intros y r1 r2 Hy H1 H2.
  rewrite Forall_lookup in Hr1, Hr2.
  apply list_eq_same_length with w; [apply (Hr2 _ _ H2) | apply (Hr1 _ _ H1) |].
  intros x v1 v2 Hx Hv1 Hv2.
  specialize (Hcells y x Hy Hx). unfold Np.cell in Hcells.
  rewrite H1, H2 in Hcells. simpl in Hcells. congruence.
Qed.

Lemma tile_shape h w m a b :
  Np.has_shape h w m -> Np.has_shape (a * h) (b * w) (Np.tile m a b).
Proof.
  intros [Hlen Hrows]. unfold Np.tile. split.
  - by rewrite length_join_replicate, length_fmap, Hlen.
  - apply Forall_join, Forall_replicate, Forall_fmap.
    eapply Forall_impl; [exact Hrows|]. intros row Hrow. simpl.
    by rewrite length_join_replicate, Hrow.
Qed.

Lemma tile_cell h w m a b y x :
  Np.has_shape h w m -> (y < a * h)%nat -> (x < b * w)%nat ->
  Np.cell (Np.tile m a b) y x = Np.cell m (y mod h) (x mod w).
Proof.
  intros [Hlen Hrows] Hy Hx. unfold Np.cell, Np.tile.
  rewrite lookup_join_replicate by (by rewrite length_fmap, Hlen).
  rewrite length_fmap, Hlen, list_lookup_fmap.
  destruct (m !! (y mod h)%nat) as [row|] eqn:Hrow; simpl; [|done].
  rewrite Forall_lookup in Hrows. specialize (Hrows _ _ Hrow). simpl in Hrows.
  rewrite lookup_join_replicate by (by rewrite Hrows).
  by rewrite Hrows.
Qed.

Lemma crop_to_shape H W h w m :
  Np.has_shape H W m -> (h ≤ H)%nat -> (w ≤ W)%nat ->
  Np.has_shape h w (Np.crop_to h w m).
Proof.
  intros [Hlen Hrows] Hh Hw. unfold Np.crop_to. split.
  - rewrite length_fmap, length_take. lia.
  - apply Forall_fmap, Forall_take.
    eapply Forall_impl; [exact Hrows|]. intros row Hrow. simpl in *.
    rewrite length_take. lia.
Qed.

Lemma crop_to_cell h w m y x :
  (y < h)%nat -> (x < w)%nat ->
  Np.cell (Np.crop_to h w m) y x = Np.cell m y x.
Proof.
  intros Hy Hx. unfold Np.cell, Np.crop_to.
  rewrite list_lookup_fmap, lookup_take_lt by done.
  destruct (m !! y) as [row|]; simpl; [|done].
  by rewrite lookup_take_lt.
Qed.

End ArrayFacts.

(** ** Tiling the threshold matrix *)

Section Tiling.
Context {A : Type}.

Lemma ceil_div_covers (n M : nat) : (1 ≤ M)%nat -> (n ≤ (n + M - 1) / M * M)%nat.
Proof.
  intros HM.
  pose proof (Nat.div_mod_eq (n + M - 1) M) as Hdiv.
  pose proof (Nat.mod_upper_bound (n + M - 1) M) as Hmod.
  nia.
Qed.

Lemma floor_div_succ_covers (n M : nat) : (1 ≤ M)%nat -> (n ≤ (n / M + 1) * M)%nat.
Proof.
  intros HM.
  pose proof (Nat.div_mod_eq n M) as Hdiv.
  pose proof (Nat.mod_upper_bound n M) as Hmod.
  nia.
Qed.

Lemma head_row_length (h w : nat) (matrix : list (list A)) :
  (1 ≤ h)%nat -> Np.has_shape h w matrix ->
  length (default [] (head matrix)) = w.
Proof.
  intros Hh [Hlen Hrows]. destruct matrix as [|row rest]; simpl in *; [lia|].
  by apply Forall_cons in Hrows as [? _].
Qed.

(** Any tiling that covers the target, cropped to the target, reads the
    matrix cyclically from the origin. *)
Lemma cropped_tiling (M h w a b : nat) (matrix : list (list A)) :
  (1 ≤ M)%nat -> Np.has_shape M M matrix -> (h ≤ a * M)%nat -> (w ≤ b * M)%nat ->
  Np.has_shape h w (Np.crop_to h w (Np.tile matrix a b)) ∧
  ∀ y x, (y < h)%nat -> (x < w)%nat ->
    Np.cell (Np.crop_to h w (Np.tile matrix a b)) y x
    = Np.cell matrix (y mod M) (x mod M).
Proof.
  intros HM Hshape Ha Hb. split.
  - eapply crop_to_shape; [by apply tile_shape|done..].
  - intros y x Hy Hx. rewrite crop_to_cell by done.
    apply tile_cell; [done|lia..].
Qed.

End Tiling.

(** Both scripts tile enough to cover the target. *)
Lemma threshold_buffers_read_cyclically (M h w : nat) (matrix : list (list Q)) :
  (1 ≤ M)%nat -> Np.has_shape M M matrix ->
  (Np.has_shape h w (BackgroundsV2.threshold_buffer M matrix h w) ∧
   Np.has_shape h w (BackgroundsV3.threshold_buffer matrix h w)) ∧
  (∀ y x, (y < h)%nat -> (x < w)%nat ->
     Np.cell (BackgroundsV2.threshold_buffer M matrix h w) y x
       = Np.cell matrix (y mod M) (x mod M) ∧
     Np.cell (BackgroundsV3.threshold_buffer matrix h w) y x
       = Np.cell matrix (y mod M) (x mod M)).
Proof.
  intros HM Hshape.
  assert (H2 := cropped_tiling M h w ((h + M - 1) / M) ((w + M - 1) / M) matrix
                  HM Hshape (ceil_div_covers h M HM) (ceil_div_covers w M HM)).
  assert (H3 := cropped_tiling M h w (h / M + 1) (w / M + 1) matrix
                  HM Hshape (floor_div_succ_covers h M HM)
                  (floor_div_succ_covers w M HM)).
  assert (E3 : BackgroundsV3.threshold_buffer matrix h w
               = Np.crop_to h w (Np.tile matrix (h / M + 1) (w / M + 1))).
  { unfold BackgroundsV3.threshold_buffer.
    rewrite (head_row_length M M matrix HM Hshape).
    by destruct Hshape as [-> _]. }
  rewrite E3. unfold BackgroundsV2.threshold_buffer.
  destruct H2 as [Hs2 Hc2], H3 as [Hs3 Hc3].
  split; [done|].
  intros y x Hy Hx. split; [by apply Hc2 | by apply Hc3].
Qed.

(** C5: for an MxM threshold matrix and a target of width w >= 1 and
    height h >= 1, the threshold buffer of compress-backgrounds-v2.py and
    that of compress-backgrounds-v3.py have h rows of w cells and their cell
    (y, x) is the matrix cell (y mod M, x mod M); for the MxM target they
    are the matrix itself. *)
Theorem C5_threshold_buffer_tiles (M h w : nat) (matrix : list (list Q)) :
  (1 ≤ M)%nat -> Np.has_shape M M matrix -> (1 ≤ h)%nat -> (1 ≤ w)%nat ->
  (Np.has_shape h w (BackgroundsV2.threshold_buffer M matrix h w) ∧
   Np.has_shape h w (BackgroundsV3.threshold_buffer matrix h w)) ∧
  (∀ y x, (y < h)%nat -> (x < w)%nat ->
     Np.cell (BackgroundsV2.threshold_buffer M matrix h w) y x
       = Np.cell matrix (y mod M) (x mod M) ∧
     Np.cell (BackgroundsV3.threshold_buffer matrix h w) y x
       = Np.cell matrix (y mod M) (x mod M)) ∧
  (BackgroundsV2.threshold_buffer M matrix M M = matrix ∧
   BackgroundsV3.threshold_buffer matrix M M = matrix).
Proof.
  intros HM Hshape Hh Hw.
  destruct (threshold_buffers_read_cyclically M h w matrix HM Hshape) as [Hs Hc].
  split; [exact Hs|]. split; [exact Hc|].
  destruct (threshold_buffers_read_cyclically M M M matrix HM Hshape)
    as [[Hs2 Hs3] HcM].
  split; apply (array_ext M M); try done;
    intros y x Hy Hx; destruct (HcM y x Hy Hx) as [E2 E3];
    rewrite ?E2, ?E3; by rewrite !Nat.mod_small.
Qed.

Lemma C5_threshold_buffer_tiles_witness :
  (Np.has_shape 5 5 (BackgroundsV2.threshold_buffer 4 BackgroundsV2.bayer4 5 5) ∧
   Np.has_shape 5 5 (BackgroundsV3.threshold_buffer BackgroundsV2.bayer4 5 5)) ∧
  (∀ y x, (y < 5)%nat -> (x < 5)%nat ->
     Np.cell (BackgroundsV2.threshold_buffer 4 BackgroundsV2.bayer4 5 5) y x
       = Np.cell BackgroundsV2.bayer4 (y mod 4) (x mod 4) ∧
     Np.cell (BackgroundsV3.threshold_buffer BackgroundsV2.bayer4 5 5) y x
       = Np.cell BackgroundsV2.bayer4 (y mod 4) (x mod 4)) ∧
  (BackgroundsV2.threshold_buffer 4 BackgroundsV2.bayer4 4 4 = BackgroundsV2.bayer4 ∧
   BackgroundsV3.threshold_buffer BackgroundsV2.bayer4 4 4 = BackgroundsV2.bayer4).
Proof.
  apply (C5_threshold_buffer_tiles 4 5 5 BackgroundsV2.bayer4); [lia| |lia|lia].
  split; [reflexivity|]. repeat constructor.
Defined.

(** ** Thresholding *)

Section Thresholding.

Lemma mmap_cell {A B : Type} (f : A -> B) (m : list (list A)) (y x : nat) :
  Np.cell (Np.mmap f m) y x = f <$> Np.cell m y x.
Proof.
  unfold Np.cell, Np.mmap. rewrite list_lookup_fmap.
  destruct (m !! y) as [row|]; simpl; [|done]. by rewrite list_lookup_fmap.
Qed.

Lemma mmap_shape {A B : Type} (f : A -> B) (m : list (list A)) (h w : nat) :
  Np.has_shape h w m -> Np.has_shape h w (Np.mmap f m).
Proof.
  intros [Hlen Hrows]. unfold Np.mmap. split; [by rewrite length_fmap|].
  apply Forall_fmap. eapply Forall_impl; [exact Hrows|].
  intros row Hrow. simpl in *. by rewrite length_fmap.
Qed.

Lemma greater_cell (a b : list (list Q)) (y x : nat) :
  Np.cell (Np.greater a b) y x
  = v ← Np.cell a y x; t ← Np.cell b y x; Some (bool_decide (t < v)%Q).
Proof.
  unfold Np.cell, Np.greater. rewrite lookup_zip_with.
  destruct (a !! y) as [ra|]; simpl; [|done].
  destruct (b !! y) as [rb|]; simpl.
  - rewrite lookup_zip_with. by destruct (ra !! x).
  - by destruct (ra !! x).
Qed.

Lemma greater_shape (a b : list (list Q)) (h w : nat) :
  Np.has_shape h w a -> Np.has_shape h w b -> Np.has_shape h w (Np.greater a b).
Proof.
  intros [Hla Hra] [Hlb Hrb]. unfold Np.greater. split.
  - rewrite length_zip_with. lia.
  - apply Forall_lookup. intros y row Hrow.
    apply lookup_zip_with_Some in Hrow as (ra & rb & -> & Ha & Hb).
    rewrite Forall_lookup in Hra, Hrb.
    rewrite length_zip_with, (Hra _ _ Ha), (Hrb _ _ Hb). lia.
Qed.

Lemma thresholder_cell (img_array threshold : list (list Q)) (y x : nat) :
  Np.cell (thresholder img_array threshold) y x
  = v ← Np.cell img_array y x; t ← Np.cell threshold y x;
    Some (bool_decide (t < v)%Q).
Proof.
  unfold thresholder, Pil.convert_1, Np.as_uint8_255.
  rewrite !mmap_cell, greater_cell.
  destruct (Np.cell img_array y x) as [v|]; simpl; [|done].
  destruct (Np.cell threshold y x) as [t|]; simpl; [|done].
  by destruct (bool_decide (t < v)%Q).
Qed.

(** The Bayer branches of the two scripts end in the thresholder, fed with
    the normalised samples and the tiled matrix. *)
Lemma v2_bayer_paths {pixel : Type} (luma : pixel -> Z) (image : list (list pixel)) :
  let img_array := BackgroundsV2.to_array luma image in
  let height := length img_array in
  let width := length (default [] (head img_array)) in
  BackgroundsV2.apply_ordered_dithering luma image "bayer2"
    = Some (thresholder img_array
              (BackgroundsV2.threshold_buffer 2 BackgroundsV2.bayer2 height width)) ∧
  BackgroundsV2.apply_ordered_dithering luma image "bayer4"
    = Some (thresholder img_array
              (BackgroundsV2.threshold_buffer 4 BackgroundsV2.bayer4 height width)) ∧
  BackgroundsV2.apply_ordered_dithering luma image "bayer8"
    = Some (thresholder img_array
              (BackgroundsV2.threshold_buffer 8 BackgroundsV2.bayer8 height width)).
Proof. by repeat split. Qed.

Lemma v3_bayer_paths {pixel : Type} (luma : pixel -> Z) floyd
    (image : list (list pixel)) :
  let img_array := BackgroundsV3.to_array luma image in
  let height := length img_array in
  let width := length (default [] (head img_array)) in
  BackgroundsV3.apply_ordered_dither luma floyd image "bayer2"
    = Some (thresholder img_array
              (BackgroundsV3.threshold_buffer BackgroundsV3.bayer2 height width)) ∧
  BackgroundsV3.apply_ordered_dither luma floyd image "bayer4"
    = Some (thresholder img_array
              (BackgroundsV3.threshold_buffer BackgroundsV3.bayer4 height width)) ∧
  BackgroundsV3.apply_ordered_dither luma floyd image "bayer8"
    = Some (thresholder img_array
              (BackgroundsV3.threshold_buffer BackgroundsV3.bayer8 height width)).
Proof. by repeat split. Qed.

(** Through [apply_ordered_dithering] with pattern bayer4: the pixel at
    (y, x) of the result is white exactly when the sample of the image
    there, over 255, exceeds the Bayer cell (y mod 4, x mod 4). *)
Lemma v2_bayer4_pixel {pixel : Type} (luma : pixel -> Z)
    (image : list (list pixel)) (h w y x : nat) (p : pixel) :
  Np.has_shape h w image -> Np.cell image y x = Some p ->
  ∃ out t,
    BackgroundsV2.apply_ordered_dithering luma image "bayer4" = Some out ∧
    Np.cell BackgroundsV2.bayer4 (y mod 4) (x mod 4) = Some t ∧
    Np.cell out y x = Some (bool_decide (t < inject_Z (luma p) / 255)%Q).
Proof.
  intros Hshape Hp.
  destruct (cell_bounds h w image y x p Hshape Hp) as [Hy Hx].
  assert (Hb4 : Np.has_shape 4 4 BackgroundsV2.bayer4)
    by (split; [reflexivity | repeat constructor]).
  destruct (cell_is_Some 4 4 BackgroundsV2.bayer4 (y mod 4) (x mod 4) Hb4)
    as [t Ht]; [apply Nat.mod_upper_bound; lia..|].
  destruct (v2_bayer_paths luma image) as (_ & Hrun & _).
  assert (Harr : Np.has_shape h w (BackgroundsV2.to_array luma image))
    by (by apply mmap_shape).
  eexists. exists t. split; [exact Hrun|]. split; [exact Ht|].
  assert (Hv : Np.cell (BackgroundsV2.to_array luma image) y x
               = Some (inject_Z (luma p) / 255)%Q)
    by (unfold BackgroundsV2.to_array; by rewrite mmap_cell, Hp).
  rewrite thresholder_cell, Hv. simpl.
  rewrite (head_row_length h w _ ltac:(lia) Harr).
  destruct Harr as [-> _].
  destruct (threshold_buffers_read_cyclically 4 h w BackgroundsV2.bayer4
              ltac:(lia) Hb4) as [_ Hcells].
  destruct (Hcells y x Hy Hx) as [-> _]. by rewrite Ht.
Qed.

(** For two buffers of the same h x w shape the thresholder returns an
    h x w binary image whose pixel (y, x) is white exactly when the sample
    exceeds the threshold there, and black when the two are equal. *)
Lemma thresholder_strict (h w : nat) (img_array threshold : list (list Q)) :
  Np.has_shape h w img_array -> Np.has_shape h w threshold ->
  strictly_thresholded h w img_array threshold (thresholder img_array threshold).
Proof.
  intros Hi Ht. split.
  - unfold thresholder, Pil.convert_1, Np.as_uint8_255.
    by do 2 apply mmap_shape; apply greater_shape.
  - intros y x Hy Hx.
    destruct (cell_is_Some h w img_array y x Hi Hy Hx) as [v Hv].
    destruct (cell_is_Some h w threshold y x Ht Hy Hx) as [t Htv].
    exists v, t, (bool_decide (t < v)%Q).
    split; [done|]. split; [done|]. split.
    { by rewrite thresholder_cell, Hv, Htv. }
    split.
    + apply bool_decide_eq_true.
    + intros Heq. apply bool_decide_eq_false. rewrite Heq. apply Qlt_irrefl.
Qed.

End Thresholding.

(** ** The bounding box and the crop *)

Section BoundingBox.

Lemma foldr_min_le (n : nat) (ns : list nat) :
  (foldr Nat.min n ns ≤ n)%nat ∧ ∀ k, k ∈ ns -> (foldr Nat.min n ns ≤ k)%nat.
Proof.
  induction ns as [|a ns [IHn IHk]]; simpl.
  - split; [lia|]. intros k Hk. by apply elem_of_nil in Hk.
  - split; [lia|]. intros k Hk.
    apply elem_of_cons in Hk as [->|Hk]; [lia|]. specialize (IHk k Hk). lia.
Qed.

Lemma foldr_min_elem_of (n : nat) (ns : list nat) : foldr Nat.min n ns ∈ n :: ns.
Proof.
  induction ns as [|a ns IH]; simpl; [apply list_elem_of_here|].
  destruct (Nat.min_spec a (foldr Nat.min n ns)) as [[_ ->]|[_ ->]].
  - apply list_elem_of_further, list_elem_of_here.
  - apply elem_of_cons in IH as [->|IH].
    + apply list_elem_of_here.
    + by do 2 apply list_elem_of_further.
Qed.

Lemma min_list_le (ns : list nat) (k : nat) : k ∈ ns -> (Pil.min_list ns ≤ k)%nat.
Proof.
  destruct ns as [|n ns]; simpl; intros Hk; [by apply elem_of_nil in Hk|].
  destruct (foldr_min_le n ns) as [Hn Hks].
  apply elem_of_cons in Hk as [->|Hk]; [done|by apply Hks].
Qed.

Lemma min_list_elem_of (ns : list nat) : ns ≠ [] -> Pil.min_list ns ∈ ns.
Proof. destruct ns as [|n ns]; [done|]. intros _. apply foldr_min_elem_of. Qed.

(** The scan lists exactly the non-zero cells. *)
Lemma nonzero_coords_spec (im : list (list Z)) (x y : nat) :
  (x, y) ∈ Pil.nonzero_coords im ↔ ∃ v, Np.cell im y x = Some v ∧ v ≠ 0.
Proof.
  unfold Pil.nonzero_coords. rewrite list_elem_of_fmap. split.
  - intros ([[x' y'] v] & Heq & Hin). simpl in Heq. injection Heq as <- <-.
    apply list_elem_of_filter in Hin as [Hnz Hin]. simpl in Hnz.
    apply list_elem_of_join in Hin as (l & Hin & Hl).
    apply elem_of_lookup_imap in Hl as (yy & row & -> & Hrow).
    apply elem_of_lookup_imap in Hin as (xx & vv & Heq & Hv).
    injection Heq as -> -> ->.
    exists vv. split; [|done]. apply cell_Some. eauto.
  - intros (v & Hcell & Hnz). apply cell_Some in Hcell as (row & Hrow & Hv).
    exists ((x, y), v). split; [done|].
    apply list_elem_of_filter. split; [done|].
    apply list_elem_of_join. exists (imap (λ x v, ((x, y), v)) row). split.
    + apply elem_of_lookup_imap. eauto.
    + apply elem_of_lookup_imap. exists y, row. eauto.
Qed.

Lemma getbbox_None (im : list (list Z)) :
  (∀ y x v, Np.cell im y x = Some v -> v = 0) -> Pil.getbbox im = None.
Proof.
  intros Hzero. unfold Pil.getbbox.
  destruct (Pil.nonzero_coords im) as [|[x y] rest] eqn:Hhits; [done|].
  assert (Hin : (x, y) ∈ Pil.nonzero_coords im)
    by (rewrite Hhits; apply list_elem_of_here).
  apply nonzero_coords_spec in Hin as (v & Hcell & Hnz).
  by specialize (Hzero _ _ _ Hcell).
Qed.

Lemma getbbox_Some (im : list (list Z)) :
  (∃ y x v, Np.cell im y x = Some v ∧ v ≠ 0) ->
  ∃ x0 y0 x1 y1,
    Pil.getbbox im = Some (x0, y0, x1, y1) ∧
    (∀ y x v, Np.cell im y x = Some v -> v ≠ 0 ->
              (x0 ≤ x < x1)%nat ∧ (y0 ≤ y < y1)%nat) ∧
    (∃ y v, Np.cell im y x0 = Some v ∧ v ≠ 0) ∧
    (∃ y v, Np.cell im y (x1 - 1) = Some v ∧ v ≠ 0) ∧
    (∃ x v, Np.cell im y0 x = Some v ∧ v ≠ 0) ∧
    (∃ x v, Np.cell im (y1 - 1) x = Some v ∧ v ≠ 0).
Proof.
  intros (y & x & v & Hcell & Hnz).
  assert (Hin : (x, y) ∈ Pil.nonzero_coords im)
    by (apply nonzero_coords_spec; eauto).
  unfold Pil.getbbox.
  set (hits := Pil.nonzero_coords im) in *.
  assert (Hne : hits ≠ []) by (intros E; rewrite E in Hin; by apply elem_of_nil in Hin).
  assert (Hxs : fst <$> hits ≠ []) by (by destruct hits).
  assert (Hys : snd <$> hits ≠ []) by (by destruct hits).
  assert (Hcol : ∀ c, c ∈ fst <$> hits -> ∃ r u, Np.cell im r c = Some u ∧ u ≠ 0).
  { intros c Hc. apply list_elem_of_fmap in Hc as ([c' r] & -> & Hc). simpl.
    apply nonzero_coords_spec in Hc as (u & ? & ?). eauto. }
  assert (Hrow : ∀ r, r ∈ snd <$> hits -> ∃ c u, Np.cell im r c = Some u ∧ u ≠ 0).
  { intros r Hr. apply list_elem_of_fmap in Hr as ([c r'] & -> & Hr). simpl.
    apply nonzero_coords_spec in Hr as (u & ? & ?). eauto. }
  exists (Pil.min_list (fst <$> hits)), (Pil.min_list (snd <$> hits)),
         (S (max_list (fst <$> hits))), (S (max_list (snd <$> hits))).
  split; [by destruct hits|].
  split.
  { intros r c u Hu Hunz.
    assert (Hrc : (c, r) ∈ hits) by (apply nonzero_coords_spec; eauto).
    assert (Hc : c ∈ fst <$> hits)
      by (apply list_elem_of_fmap; by exists (c, r)).
    assert (Hr : r ∈ snd <$> hits)
      by (apply list_elem_of_fmap; by exists (c, r)).
    pose proof (min_list_le _ _ Hc). pose proof (min_list_le _ _ Hr).
    pose proof (max_list_elem_of_le _ _ Hc).
    pose proof (max_list_elem_of_le _ _ Hr). lia. }
  replace (S (max_list (fst <$> hits)) - 1)%nat
    with (max_list (fst <$> hits)) by lia.
  replace (S (max_list (snd <$> hits)) - 1)%nat
    with (max_list (snd <$> hits)) by lia.
  split; [apply Hcol, min_list_elem_of, Hxs|].
  split; [apply Hcol, max_list_elem_of, Hxs|].
  split; [apply Hrow, min_list_elem_of, Hys|].
  apply Hrow, max_list_elem_of, Hys.
Qed.

Lemma crop_cell {P : Type} (x0 y0 x1 y1 : nat) (im : list (list P)) (y x : nat) :
  (y < y1 - y0)%nat -> (x < x1 - x0)%nat ->
  Np.cell (Pil.crop (x0, y0, x1, y1) im) y x = Np.cell im (y0 + y) (x0 + x).
Proof.
  intros Hy Hx. unfold Np.cell, Pil.crop.
  rewrite list_lookup_fmap, lookup_take_lt, lookup_drop by done.
  destruct (im !! (y0 + y)%nat) as [row|]; simpl; [|done].
  by rewrite lookup_take_lt, lookup_drop.
Qed.

Lemma crop_shape {P : Type} (x0 y0 x1 y1 h w : nat) (im : list (list P)) :
  Np.has_shape h w im -> (x1 ≤ w)%nat -> (y1 ≤ h)%nat ->
  Np.has_shape (y1 - y0) (x1 - x0) (Pil.crop (x0, y0, x1, y1) im).
Proof.
  intros [Hlen Hrows] Hx Hy. unfold Pil.crop. split.
  - rewrite length_fmap, length_take, length_drop. lia.
  - apply Forall_fmap, Forall_take, Forall_drop.
    eapply Forall_impl; [exact Hrows|]. intros row Hrow. simpl in *.
    rewrite length_take, length_drop. lia.
Qed.

End BoundingBox.

(** ** The background cropper *)

Section Cropper.
Context {pixel : Type} (luma : pixel -> Z).
Implicit Types (image : list (list pixel)).

(** The mask handed to [getbbox] is non-zero exactly on the bright pixels. *)
Lemma mask_nonzero image (tolerance : Z) (y x : nat) :
  (∃ v, Np.cell (Pil.point (λ p, if bool_decide (tolerance < p) then 255 else 0)
                   (Np.mmap luma image)) y x = Some v ∧ v ≠ 0)
  ↔ bright luma tolerance image y x.
Proof.
  unfold Pil.point, bright. rewrite !mmap_cell.
  destruct (Np.cell image y x) as [p|]; simpl.
  - split.
    + intros (v & [= <-] & Hnz). exists p. split; [done|].
      by destruct (bool_decide_reflect (tolerance < luma p)).
    + intros (p' & [= <-] & Hp). eexists. split; [done|].
      by rewrite bool_decide_eq_true_2.
  - split; [by intros (? & ? & _) | by intros (? & ? & _)].
Qed.

Lemma crop_nothing_bright image (tolerance : Z) :
  (∀ y x, ¬ bright luma tolerance image y x) ->
  BackgroundsV2.crop_black_background luma image tolerance = image.
Proof.
  intros Hdark. unfold BackgroundsV2.crop_black_background.
  rewrite getbbox_None; [done|].
  intros y x v Hv. destruct (decide (v = 0)) as [|Hnz]; [done|].
  destruct (Hdark y x). apply mask_nonzero. eauto.
Qed.

Lemma crop_to_tight_box image (tolerance : Z) (h w : nat) :
  Np.has_shape h w image ->
  (∃ y x, bright luma tolerance image y x) ->
  ∃ x0 y0 x1 y1,
    tight_box luma tolerance image (x0, y0, x1, y1) ∧
    (x0 < x1 ≤ w)%nat ∧ (y0 < y1 ≤ h)%nat ∧
    BackgroundsV2.crop_black_background luma image tolerance
      = Pil.crop (x0, y0, x1, y1) image ∧
    Np.has_shape (y1 - y0) (x1 - x0)
      (BackgroundsV2.crop_black_background luma image tolerance) ∧
    ∀ y x, (y < y1 - y0)%nat -> (x < x1 - x0)%nat ->
      Np.cell (BackgroundsV2.crop_black_background luma image tolerance) y x
      = Np.cell image (y0 + y) (x0 + x).
Proof.
  intros Hshape (yb & xb & Hb).
  set (mask := Pil.point (λ p, if bool_decide (tolerance < p) then 255 else 0)
                 (Np.mmap luma image)).
  destruct (getbbox_Some mask) as (x0 & y0 & x1 & y1 & Hbox & Hall & Hl & Hr & Hu & Hd).
  { apply mask_nonzero in Hb as (v & ? & ?). eauto. }
  assert (Hin : ∀ y x, bright luma tolerance image y x ->
                       (x0 ≤ x < x1)%nat ∧ (y0 ≤ y < y1)%nat).
  { intros y x Hyx. apply mask_nonzero in Hyx as (v & Hv & Hnz). eauto. }
  assert (Hl' : ∃ y, bright luma tolerance image y x0).
  { destruct Hl as (y & v & ? & ?). exists y. apply mask_nonzero. eauto. }
  assert (Hr' : ∃ y, bright luma tolerance image y (x1 - 1)).
  { destruct Hr as (y & v & ? & ?). exists y. apply mask_nonzero. eauto. }
  assert (Hu' : ∃ x, bright luma tolerance image y0 x).
  { destruct Hu as (x & v & ? & ?). exists x. apply mask_nonzero. eauto. }
  assert (Hd' : ∃ x, bright luma tolerance image (y1 - 1) x).
  { destruct Hd as (x & v & ? & ?). exists x. apply mask_nonzero. eauto. }
  assert (Hx1 : (x0 < x1 ≤ w)%nat).
  { destruct Hr' as (y & p & Hp & _).
    destruct (cell_bounds h w image _ _ _ Hshape Hp).
    destruct (Hin _ _ Hb). lia. }
  assert (Hy1 : (y0 < y1 ≤ h)%nat).
  { destruct Hd' as (x & p & Hp & _).
    destruct (cell_bounds h w image _ _ _ Hshape Hp).
    destruct (Hin _ _ Hb). lia. }
  assert (Hcrop : BackgroundsV2.crop_black_background luma image tolerance
                  = Pil.crop (x0, y0, x1, y1) image).
  { unfold BackgroundsV2.crop_black_background. fold mask. by rewrite Hbox. }
  exists x0, y0, x1, y1.
  split; [done|]. split; [done|]. split; [done|]. split; [done|].
  rewrite Hcrop. split.
  - apply (crop_shape _ _ _ _ h w); [done|lia..].
  - intros y x Hy Hx. by apply crop_cell.
Qed.

(** A 1x1 array is its one cell. *)
Lemma one_cell (m : list (list pixel)) (p : pixel) :
  Np.has_shape 1 1 m -> Np.cell m 0 0 = Some p -> m = [[p]].
Proof.
  intros [Hlen Hrows] Hcell.
  destruct m as [|row [|]]; simpl in *; try lia.
  apply Forall_cons in Hrows as [Hrow _].
  destruct row as [|q [|]]; simpl in *; try lia.
  unfold Np.cell in Hcell. simpl in Hcell. congruence.
Qed.

(** C6: the cropper of compress-backgrounds.py is that of
    compress-backgrounds-v2.py at the tolerance 10.  For an image of h rows
    and w columns and an integer tolerance T: when no pixel has a grayscale
    sample above T the image is returned as it is; otherwise the result is
    the image cut to the smallest box around the pixels whose sample is
    above T, and its pixels are those of the image itself, taken from the
    box; when the only such pixel of an 8x8 image is at (3, 3), the result
    is that one pixel. *)
Theorem C6_crop_black_background image (tolerance : Z) (h w : nat) :
  Np.has_shape h w image ->
  BackgroundsV1.crop_black_background luma image
    = BackgroundsV2.crop_black_background luma image 10 ∧
  ((∀ y x, ¬ bright luma tolerance image y x) ->
     BackgroundsV2.crop_black_background luma image tolerance = image) ∧
  ((∃ y x, bright luma tolerance image y x) ->
     ∃ x0 y0 x1 y1,
       tight_box luma tolerance image (x0, y0, x1, y1) ∧
       (x0 < x1 ≤ w)%nat ∧ (y0 < y1 ≤ h)%nat ∧
       BackgroundsV2.crop_black_background luma image tolerance
         = Pil.crop (x0, y0, x1, y1) image ∧
       Np.has_shape (y1 - y0) (x1 - x0)
         (BackgroundsV2.crop_black_background luma image tolerance) ∧
       ∀ y x, (y < y1 - y0)%nat -> (x < x1 - x0)%nat ->
         Np.cell (BackgroundsV2.crop_black_background luma image tolerance) y x
         = Np.cell image (y0 + y) (x0 + x)) ∧
  (h = 8%nat -> w = 8%nat ->
   (∀ y x, bright luma tolerance image y x ↔ y = 3%nat ∧ x = 3%nat) ->
     ∃ p, Np.cell image 3 3 = Some p ∧
          BackgroundsV2.crop_black_background luma image tolerance = [[p]]).
Proof.
  intros Hshape.
  split; [reflexivity|].
  split; [apply crop_nothing_bright|].
  split; [by apply crop_to_tight_box|].
  intros -> -> Honly.
  destruct (crop_to_tight_box image tolerance 8 8 Hshape)
    as (x0 & y0 & x1 & y1 & Htight & Hx & Hy & _ & Hs & Hc).
  { exists 3%nat, 3%nat. by apply Honly. }
  destruct Htight as (_ & [yl Hl] & [yr Hr] & [xu Hu] & [xd Hd]).
  apply Honly in Hl as [_ Hl], Hr as [_ Hr], Hu as [Hu _], Hd as [Hd _].
  assert (x0 = 3 ∧ x1 = 4 ∧ y0 = 3 ∧ y1 = 4)%nat as (-> & -> & -> & ->) by lia.
  destruct (proj2 (Honly 3%nat 3%nat)) as (p & Hp & _); [done|].
  exists p. split; [done|].
  apply one_cell; [exact Hs|]. by rewrite Hc by lia.
Qed.

End Cropper.

Lemma C6_crop_black_background_witness :
  BackgroundsV1.crop_black_background id lone_pixel_image
    = BackgroundsV2.crop_black_background id lone_pixel_image 10 ∧
  ((∀ y x, ¬ bright id 10 lone_pixel_image y x) ->
     BackgroundsV2.crop_black_background id lone_pixel_image 10 = lone_pixel_image) ∧
  ((∃ y x, bright id 10 lone_pixel_image y x) ->
     ∃ x0 y0 x1 y1,
       tight_box id 10 lone_pixel_image (x0, y0, x1, y1) ∧
       (x0 < x1 ≤ 8)%nat ∧ (y0 < y1 ≤ 8)%nat ∧
       BackgroundsV2.crop_black_background id lone_pixel_image 10
         = Pil.crop (x0, y0, x1, y1) lone_pixel_image ∧
       Np.has_shape (y1 - y0) (x1 - x0)
         (BackgroundsV2.crop_black_background id lone_pixel_image 10) ∧
       ∀ y x, (y < y1 - y0)%nat -> (x < x1 - x0)%nat ->
         Np.cell (BackgroundsV2.crop_black_background id lone_pixel_image 10) y x
         = Np.cell lone_pixel_image (y0 + y) (x0 + x)) ∧
  (8%nat = 8%nat -> 8%nat = 8%nat ->
   (∀ y x, bright id 10 lone_pixel_image y x ↔ y = 3%nat ∧ x = 3%nat) ->
     ∃ p, Np.cell lone_pixel_image 3 3 = Some p ∧
          BackgroundsV2.crop_black_background id lone_pixel_image 10 = [[p]]).
Proof.
  apply (C6_crop_black_background id lone_pixel_image 10 8 8).
  split; [reflexivity|]. repeat constructor.
Defined.

(** The cropper run on that image and on a black one. *)
Example crop_lone_pixel :
  BackgroundsV2.crop_black_background id lone_pixel_image 10 = [[200]] ∧
  BackgroundsV1.crop_black_background id lone_pixel_image = [[200]] ∧
  BackgroundsV2.crop_black_background id (replicate 8 (replicate 8 10)) 10
    = replicate 8 (replicate 8 10).
Proof. by repeat split. Qed.

(** ** The 16x16 scenario *)

Section Scenario.




(** The same run at the sample 128, whose 128/255 is above 1/2. *)
Example mid_gray_128_run :
  BackgroundsV2.process_image id (uniform_image 128) "bayer4"
    = Some (Np.tile half_tile_and_one 4 4).
Proof. vm_compute. reflexivity. Qed.

End Scenario.

(** ** Exit codes of the drivers *)

Section ExitCodes.

(** The loop over the files leaves [failed] at 0 exactly when every file
    was processed. *)
Lemma failed_counter_zero (ok : string -> bool) (files : list string) (p f : Z) :
  0 ≤ f ->
  (foldl (λ '(processed, failed) png_file,
            if ok png_file then (processed + 1, failed)
            else (processed, failed + 1)) (p, f) files).2 = 0
  ↔ f = 0 ∧ Forall (λ png_file, ok png_file = true) files.
Proof.
  revert p f. induction files as [|file files IH]; intros p f Hf; simpl.
  - split; [by intros -> | by intros [-> _]].
  - destruct (ok file) eqn:Hok.
    + rewrite IH by done. rewrite Forall_cons. tauto.
    + rewrite IH by lia. rewrite Forall_cons. split; [lia|].
      intros (_ & Hfalse & _). congruence.
Qed.

(** compress-backgrounds.py returns 0 when the source directory exists,
    holds a PNG file and every file it processed succeeded, and 1 in every
    other case. *)
Lemma v1_exit_code (source_exists : bool) (rglob_png : list string)
    (process_png_file : string -> bool) (test : bool) :
  let processed_files := if test then take 5 rglob_png else rglob_png in
  let success :=
    source_exists = true ∧ rglob_png ≠ [] ∧
    Forall (λ f, process_png_file f = true) processed_files in
  (success -> BackgroundsV1.main source_exists rglob_png process_png_file test = 0) ∧
  (¬ success -> BackgroundsV1.main source_exists rglob_png process_png_file test = 1).
Proof.
  intros processed_files success. unfold success, BackgroundsV1.main.
  destruct source_exists; simpl; [|split; [by intros [? _]|done]].
  case_bool_decide as Hfiles; [split; [by intros (_ & ? & _)|done]|].
  pose proof (failed_counter_zero process_png_file processed_files 0 0) as Hzero.
  unfold BackgroundsV1.count_files. fold processed_files.
  destruct (foldl _ (0, 0) processed_files) as [processed failed] eqn:Hfold.
  simpl in Hzero. specialize (Hzero ltac:(lia)).
  destruct (Z.eqb_spec failed 0) as [->|Hne].
  - split; [done|]. intros Hno. destruct Hno. split; [done|]. split; [done|].
    by apply Hzero.
  - split; [|done]. intros (_ & _ & Hall). destruct Hne. apply Hzero. by split.
Qed.

(** compress-backgrounds-v2.py does the same once past [--preview]. *)
Lemma v2_exit_code (source_exists : bool) (rglob_png : list string)
    (process_png_file : string -> string -> bool) (test : bool) (pattern : string) :
  let processed_files := if test then take 5 rglob_png else rglob_png in
  let success :=
    source_exists = true ∧ rglob_png ≠ [] ∧
    Forall (λ f, process_png_file f pattern = true) processed_files in
  (success ->
     BackgroundsV2.main source_exists rglob_png process_png_file false test pattern = 0) ∧
  (¬ success ->
     BackgroundsV2.main source_exists rglob_png process_png_file false test pattern = 1).
Proof.
  intros processed_files success. unfold success, BackgroundsV2.main.
  destruct source_exists; simpl; [|split; [by intros [? _]|done]].
  case_bool_decide as Hfiles; [split; [by intros (_ & ? & _)|done]|].
  pose proof (failed_counter_zero (λ f, process_png_file f pattern)
                processed_files 0 0) as Hzero.
  unfold BackgroundsV2.count_files. fold processed_files.
  destruct (foldl _ (0, 0) processed_files) as [processed failed] eqn:Hfold.
  simpl in Hzero. specialize (Hzero ltac:(lia)).
  destruct (Z.eqb_spec failed 0) as [->|Hne].
  - split; [done|]. intros Hno. destruct Hno. split; [done|]. split; [done|].
    by apply Hzero.
  - split; [|done]. intros (_ & _ & Hall). destruct Hne. apply Hzero. by split.
Qed.

(** compress-backgrounds-v3.py returns 1 for a missing or empty source
    directory and 0 whenever it gets to process files. *)
Lemma v3_exit_code (source_exists : bool) (rglob_png : list string)
    (process_png_file : string -> string -> bool) (test : bool)
    (patterns : list string) :
  BackgroundsV3.main source_exists rglob_png process_png_file test patterns
  = if source_exists && negb (bool_decide (rglob_png = [])) then 0 else 1.
Proof.
  unfold BackgroundsV3.main. destruct source_exists; simpl; [|done].
  by case_bool_decide.
Qed.

(** C9, at the input where the code departs from it: the source directory
    exists and holds the one file broken.png, which fails to process under
    both requested patterns; compress-backgrounds-v3.py counts the failure
    and still returns 0, where compress-backgrounds.py and
    compress-backgrounds-v2.py return 1. *)
Theorem C9_v3_exit_code_ignores_failures :
  BackgroundsV3.count_files (λ _ _, false) "bayer2" ["broken.png"%string] = (0, 1) ∧
  BackgroundsV3.main true ["broken.png"%string] (λ _ _, false) false
    ["bayer2"; "bayer4"]%string = 0 ∧
  BackgroundsV2.main true ["broken.png"%string] (λ _ _, false) false false "bayer4" = 1 ∧
  BackgroundsV1.main true ["broken.png"%string] (λ _, false) false = 1.
Proof. by repeat split. Qed.

End ExitCodes.

(** * Further properties of the builders *)

Section BuilderSizes.
Import BayerSpec.

(** The builders of compress-backgrounds-v2.py and -v3.py serve the sizes
    2, 4 and 8 with a square array of that size and raise [ValueError] on
    every other size. *)
Theorem bayer_matrix_supported_sizes (size : Z) :
  (size ∈ [2; 4; 8] ->
     ∃ m2 m3,
       BackgroundsV2.create_bayer_matrix size = Some m2 ∧
       BackgroundsV3.create_bayer_matrix size = Some m3 ∧
       Np.has_shape (Z.to_nat size) (Z.to_nat size) m2 ∧
       Np.has_shape (Z.to_nat size) (Z.to_nat size) m3) ∧
  (size ∉ [2; 4; 8] ->
     BackgroundsV2.create_bayer_matrix size = None ∧
     BackgroundsV3.create_bayer_matrix size = None).
Proof.
  split.
  - intros Hin. rewrite !elem_of_cons, elem_of_nil in Hin.
    destruct Hin as [->|[->|[->|[]]]];
      (do 2 eexists; split; [reflexivity|]; split; [reflexivity|];
       split; by_evaluation).
  - intros Hout. rewrite !elem_of_cons, elem_of_nil in Hout.
    unfold BackgroundsV2.create_bayer_matrix, BackgroundsV3.create_bayer_matrix.
    destruct (Z.eqb_spec size 2); [tauto|].
    destruct (Z.eqb_spec size 4); [tauto|].
    destruct (Z.eqb_spec size 8); [tauto|]. done.
Qed.

(** One more level of the reference recursion. *)
Lemma levels_succ (k : nat) :
  levels (S k)
  = Np.block (Np.mmap (λ v, 4 * v) (levels k)) (Np.mmap (λ v, 4 * v + 2) (levels k))
             (Np.mmap (λ v, 4 * v + 3) (levels k)) (Np.mmap (λ v, 4 * v + 1) (levels k)).
Proof. reflexivity. Qed.

(** The statement of [texture_bayer_matrix_returns], kept apart for the proofs that build on it. *)
Lemma texture_bayer_matrix_returns_core (depth : nat) (size : Z) (m : list (list Z)) :
  TextureAssets.create_bayer_matrix depth size = Some m
  ↔ ∃ k : nat, (k < depth)%nat ∧
               2 * 2 ^ Z.of_nat k ≤ size < 3 * 2 ^ Z.of_nat k ∧
               m = levels k.
Proof.
  revert size m. induction depth as [|d IH]; intros size m; simpl.
  { split; [done|]. intros (k & ? & _). lia. }
  destruct (Z.eqb_spec size 2) as [->|Hne].
  - split.
    + intros [= <-]. exists 0%nat. simpl. split; [lia|]. split; [lia|done].
    + intros (k & _ & Hk & ->). destruct k as [|k]; [done|].
      rewrite Nat2Z.inj_succ, Z.pow_succ_r in Hk by lia.
      assert (0 < 2 ^ Z.of_nat k) by (apply Z.pow_pos_nonneg; lia). lia.
  - split.
    + destruct (TextureAssets.create_bayer_matrix d (size / 2)) as [smaller|] eqn:Hs;
        simpl; [|done].
      intros [= <-]. apply IH in Hs as (k & Hk & Hsize & ->).
      exists (S k). split; [lia|].
      rewrite Nat2Z.inj_succ, Z.pow_succ_r by lia.
      generalize dependent (2 ^ Z.of_nat k). intros P HP.
      split; [Z.div_mod_to_equations; lia|]. by rewrite levels_succ.
    + intros (k & Hk & Hsize & ->). destruct k as [|k]; [simpl in Hsize; lia|].
      rewrite Nat2Z.inj_succ, Z.pow_succ_r in Hsize by lia.
      assert (Hs : TextureAssets.create_bayer_matrix d (size / 2) = Some (levels k)).
      { apply IH. exists k. split; [lia|]. split; [|done].
        generalize dependent (2 ^ Z.of_nat k). intros P HP.
        Z.div_mod_to_equations. lia. }
      rewrite Hs. reflexivity.
Qed.

(** The builder of create-texture-assets.py returns a matrix exactly for
    the sizes that halve down to 2, that is 2*2^k <= size < 3*2^k, when
    its recursion budget exceeds k; the matrix is then the one of the power
    of two 2*2^k, whatever the size asked for.  Every other size runs into
    the [RecursionError]. *)
Theorem texture_bayer_matrix_returns (depth : nat) (size : Z) (m : list (list Z)) :
  TextureAssets.create_bayer_matrix depth size = Some m
  ↔ ∃ k : nat, (k < depth)%nat ∧
               2 * 2 ^ Z.of_nat k ≤ size < 3 * 2 ^ Z.of_nat k ∧
               m = levels k.
Proof. intros. eapply texture_bayer_matrix_returns_core; eauto. Qed.

End BuilderSizes.

(** ** The recursive matrix is a permutation of its levels, at every size *)

Section LevelsPermutation.
Import BayerSpec.

Lemma cells_mmap {A B : Type} (f : A -> B) (m : list (list A)) :
  Np.cells (Np.mmap f m) = f <$> Np.cells m.
Proof.
  unfold Np.cells, Np.mmap. induction m as [|row m IH]; simpl; [done|].
  rewrite fmap_app. f_equal. exact IH.
Qed.

Lemma cells_block {A : Type} (P : A -> Prop) `{!∀ x, Decision (P x)}
    (a b c d : list (list A)) :
  length a = length b -> length c = length d ->
  length (filter P (Np.cells (Np.block a b c d)))
  = (length (filter P (Np.cells a)) + length (filter P (Np.cells b)) +
     length (filter P (Np.cells c)) + length (filter P (Np.cells d)))%nat.
Proof.
  assert (Hzip : ∀ u v : list (list A), length u = length v ->
    length (filter P (mjoin (zip_with app u v)))
    = (length (filter P (mjoin u)) + length (filter P (mjoin v)))%nat).
  { induction u as [|r u IH]; intros [|r' v] Hlen; simpl in *; try done.
    rewrite !filter_app, !length_app, IH by lia. lia. }
  intros Hab Hcd. unfold Np.cells, Np.block.
  rewrite join_app, filter_app, length_app, !Hzip by done. lia.
Qed.

(** In the tile [4B + c] the level v sits where B has v / 4, if v leaves
    the remainder c. *)
Lemma count_int_tile (f : Z -> Z) (c v : Z) (B : list (list Z)) :
  0 ≤ c < 4 -> (∀ u, f u = 4 * u + c) ->
  Np.count_int v (Np.mmap f B)
  = if decide (v `mod` 4 = c) then Np.count_int (v / 4) B else 0%nat.
Proof.
  intros Hc Hf. unfold Np.count_int. rewrite cells_mmap.
  induction (Np.cells B) as [|u l IH]; [by case_decide|].
  rewrite fmap_cons, !filter_cons, Hf.
  destruct (decide (v `mod` 4 = c)) as [Hmod|Hmod].
  - destruct (decide (4 * u + c = v)) as [Heq|Hneq];
      destruct (decide (u = v / 4)) as [Hu|Hu];
      rewrite ?length_cons, IH; try done;
      exfalso; Z.div_mod_to_equations; lia.
  - destruct (decide (4 * u + c = v)) as [Heq|Hneq]; [|done].
    exfalso. Z.div_mod_to_equations. lia.
Qed.

Lemma levels_count (k : nat) (v : Z) :
  Np.count_int v (levels k)
  = if decide (0 ≤ v < 4 ^ Z.of_nat (S k)) then 1%nat else 0%nat.
Proof.
  revert v. induction k as [|k IH]; intros v.
  - unfold Np.count_int. simpl. rewrite !filter_cons, filter_nil.
    repeat case_decide; simpl; lia.
  - rewrite levels_succ. unfold Np.count_int at 1.
    rewrite cells_block by (unfold Np.mmap; by rewrite !length_fmap).
    fold (Np.count_int v (Np.mmap (λ v, 4 * v) (levels k))).
    fold (Np.count_int v (Np.mmap (λ v, 4 * v + 2) (levels k))).
    fold (Np.count_int v (Np.mmap (λ v, 4 * v + 3) (levels k))).
    fold (Np.count_int v (Np.mmap (λ v, 4 * v + 1) (levels k))).
    rewrite (count_int_tile _ 0), (count_int_tile _ 2),
            (count_int_tile _ 3), (count_int_tile _ 1) by (intros; lia).
    rewrite IH.
    rewrite (Nat2Z.inj_succ (S k)), Z.pow_succ_r by lia.
    generalize (4 ^ Z.of_nat (S k)). intros P.
    repeat case_decide; try lia; exfalso; Z.div_mod_to_equations; lia.
Qed.

Lemma block_shape {A : Type} (h w : nat) (a b c d : list (list A)) :
  Np.has_shape h w a -> Np.has_shape h w b ->
  Np.has_shape h w c -> Np.has_shape h w d ->
  Np.has_shape (h + h) (w + w) (Np.block a b c d).
Proof.
  intros [Hla Hra] [Hlb Hrb] [Hlc Hrc] [Hld Hrd]. unfold Np.block. split.
  - rewrite length_app, !length_zip_with. lia.
  - rewrite Forall_lookup in Hra, Hrb, Hrc, Hrd.
    apply Forall_app. split; apply Forall_lookup; intros y row Hrow;
      apply lookup_zip_with_Some in Hrow as (r1 & r2 & -> & H1 & H2);
      rewrite length_app.
    + by rewrite (Hra _ _ H1), (Hrb _ _ H2).
    + by rewrite (Hrc _ _ H1), (Hrd _ _ H2).
Qed.

Lemma levels_shape (k : nat) : Np.has_shape (2 ^ S k) (2 ^ S k) (levels k).
Proof.
  induction k as [|k IH].
  - split; [reflexivity | repeat constructor].
  - rewrite levels_succ.
    replace (2 ^ S (S k))%nat with (2 ^ S k + 2 ^ S k)%nat
      by (rewrite (Nat.pow_succ_r' 2 (S k)); lia).
    apply block_shape; by apply mmap_shape.
Qed.

(** For every power of two 2^(k+1), with a recursion budget above k, the
    builder of create-texture-assets.py returns a square matrix of that
    size in which each level 0 .. 4^(k+1) - 1 is in exactly one cell and no
    other value is in any. *)
Theorem texture_bayer_matrix_permutation (k spare : nat) :
  ∃ m,
    TextureAssets.create_bayer_matrix (S k + spare) (2 ^ Z.of_nat (S k)) = Some m ∧
    Np.has_shape (2 ^ S k) (2 ^ S k) m ∧
    ∀ v, Np.count_int v m
         = if decide (0 ≤ v < 4 ^ Z.of_nat (S k)) then 1%nat else 0%nat.
Proof.
  exists (levels k). split; [|split; [apply levels_shape | apply levels_count]].
  apply texture_bayer_matrix_returns_core. exists k. split; [lia|]. split; [|done].
  rewrite Nat2Z.inj_succ, Z.pow_succ_r by lia.
  assert (0 < 2 ^ Z.of_nat k) by (apply Z.pow_pos_nonneg; lia). lia.
Qed.

End LevelsPermutation.

(** * Textures: how many pixels are white *)

Section Counting.
Context {A : Type}.
Implicit Types (P Q : A -> Prop) (l : list A).

Lemma length_filter_iff P Q `{!∀ x, Decision (P x)} `{!∀ x, Decision (Q x)} l :
  (∀ x, x ∈ l -> (P x ↔ Q x)) ->
  length (filter P l) = length (filter Q l).
Proof.
  induction l as [|x l IH]; intros Hiff; [done|].
  rewrite !filter_cons.
  pose proof (Hiff x (list_elem_of_here x l)) as Hx.
  assert (IH' : length (filter P l) = length (filter Q l)).
  { apply IH. intros y Hy. apply Hiff. by apply list_elem_of_further. }
  destruct (decide (P x)), (decide (Q x)); simpl; rewrite ?IH'; tauto.
Qed.

Lemma length_filter_fmap {B : Type} (f : A -> B) (R : B -> Prop)
    `{!∀ y, Decision (R y)} `{!∀ x, Decision (R (f x))} l :
  length (filter R (f <$> l)) = length (filter (λ x, R (f x)) l).
Proof.
  induction l as [|x l IH]; [done|].
  rewrite fmap_cons, !filter_cons.
  do 2 destruct (decide (R (f x))); simpl; rewrite ?IH; tauto.
Qed.

Lemma length_filter_not P `{!∀ x, Decision (P x)} l :
  (length (filter P l) + length (filter (λ x, ¬ P x) l) = length l)%nat.
Proof.
  induction l as [|x l IH]; [done|].
  rewrite !filter_cons. destruct (decide (P x)), (decide (¬ P x)); simpl; try tauto; lia.
Qed.

End Counting.

Lemma count_colour_fmap {A : Type} (h : A -> Z * Z * Z) (c : Z * Z * Z)
    (l : list A) :
  count_colour c (h <$> l) = length (filter (λ x, h x = c) l).
Proof. unfold count_colour. apply length_filter_fmap. Qed.

(** A list of 64 levels in which each count of levels below c, for
    c = 0 .. 64, is c: the count below any integer is that integer cut to
    0 .. 64. *)
Lemma count_below_clamped (l : list Z) :
  Forall (λ k, 0 ≤ k < 64) l ->
  Forall (λ c, length (filter (λ k, k < c) l) = Z.to_nat c) (seqZ 0 65) ->
  ∀ c, length (filter (λ k, k < c) l) = clamp64 c.
Proof.
  intros Hrange Hcounts c. rewrite Forall_forall in Hrange, Hcounts.
  unfold clamp64.
  destruct (decide (c < 0)) as [Hneg|Hpos].
  - rewrite (length_filter_iff _ (λ k, k < 0) l).
    + rewrite (Hcounts 0) by (apply elem_of_seqZ; lia). lia.
    + intros k Hk. specialize (Hrange k Hk). simpl in Hrange. lia.
  - destruct (decide (64 < c)) as [Hbig|Hsmall].
    + rewrite (length_filter_iff _ (λ k, k < 64) l).
      * rewrite (Hcounts 64) by (apply elem_of_seqZ; lia). lia.
      * intros k Hk. specialize (Hrange k Hk). simpl in Hrange. lia.
    + rewrite (Hcounts c) by (apply elem_of_seqZ; lia). lia.
Qed.

Section BayerTexture.
Import TextureAssets.

(** The loops of [create_bayer_dithered_texture] map one colour choice over
    the 64 positions. *)
Lemma bayer_texture_is_map (spare : nat) (density : Q) (invert : bool) :
  create_bayer_dithered_texture (3 + spare) density invert
  = Some ((λ yx : nat * nat,
             let bayer_value := default 0 (Np.cell (BayerSpec.levels 2) yx.1 yx.2) in
             if xorb (bool_decide (bayer_value < int_of_float (density * 64))) invert
             then black else white)
          <$> (y ← seq 0 8; x ← seq 0 8; [(y, x)])).
Proof.
  unfold create_bayer_dithered_texture.
  destruct (texture_bayer_levels spare) as (_ & _ & ->).
  cbn [mbind option_bind].
  match goal with |- _ = Some (?h <$> ?l) =>
    change (Some (h <$> l)) with (Some ([] ++ (h <$> l))) end.
  apply (foldl_append_lookup _
           (λ yx : nat * nat, Np.cell (BayerSpec.levels 2) yx.1 yx.2)
           (λ _ bayer_value,
              if invert
              then (if bool_decide (int_of_float (density * 64) ≤ bayer_value)
                    then black else white)
              else (if bool_decide (int_of_float (density * 64) ≤ bayer_value)
                    then white else black))).
  - intros acc [y x]. reflexivity.
  - assert (Hall : Forall (λ yx : nat * nat,
                     is_Some (Np.cell (BayerSpec.levels 2) yx.1 yx.2))
                     (y ← seq 0 8; x ← seq 0 8; [(y, x)])) by by_evaluation.
    eapply Forall_impl; [exact Hall|].
    intros yx [v Hv]. exists v. split; [exact Hv|]. rewrite Hv. simpl.
    destruct invert; repeat case_bool_decide; simpl; try done; lia.
Qed.

(** The texture of [create_bayer_dithered_texture] (and, not inverted, of
    [create_bayer_variations]) has 64 pixels; with t = int(density * 64)
    cut to 0 .. 64, exactly 64 - t of them are white and t black, and the
    other way round when inverted. *)
Theorem bayer_texture_white_count (spare : nat) (density : Q) (invert : bool) :
  ∃ pixels,
    create_bayer_dithered_texture (3 + spare) density invert = Some pixels ∧
    length pixels = 64%nat ∧
    count_colour white pixels
      = (if invert then clamp64 (int_of_float (density * 64))
         else 64 - clamp64 (int_of_float (density * 64)))%nat ∧
    count_colour black pixels
      = (if invert then 64 - clamp64 (int_of_float (density * 64))
         else clamp64 (int_of_float (density * 64)))%nat.
Proof.
  eexists. split; [apply bayer_texture_is_map|].
  set (t := int_of_float (density * 64)).
  set (scan := y ← seq 0 8; x ← seq 0 8; [(y, x)] : list (nat * nat)).
  set (value := λ yx : nat * nat, default 0 (Np.cell (BayerSpec.levels 2) yx.1 yx.2)).
  assert (Hbelow : length (filter (λ yx, value yx < t) scan) = clamp64 t).
  { transitivity (length (filter (λ k, k < t) (value <$> scan))).
    - symmetry. apply (length_filter_fmap value (λ k, k < t)).
    - apply count_below_clamped; by_evaluation. }
  assert (Hnot : (length (filter (λ yx, (value yx < t)%Z) scan)
                  + length (filter (λ yx, ¬ (value yx < t)%Z) scan) = 64)%nat)
    by (rewrite length_filter_not; reflexivity).
  split; [by rewrite length_fmap|].
  rewrite !count_colour_fmap.
  split.
  - destruct invert.
    + rewrite <- Hbelow. apply length_filter_iff. intros yx _. fold (value yx).
      simpl. case_bool_decide; simpl; split; (done || tauto).
    + assert (E : length (filter (λ yx, ¬ (value yx < t)%Z) scan)
                  = (64 - clamp64 t)%nat) by lia.
      rewrite <- E. apply length_filter_iff. intros yx _. fold (value yx).
      simpl. case_bool_decide; simpl; split; (done || tauto).
  - destruct invert.
    + assert (E : length (filter (λ yx, ¬ (value yx < t)%Z) scan)
                  = (64 - clamp64 t)%nat) by lia.
      rewrite <- E. apply length_filter_iff. intros yx _. fold (value yx).
      simpl. case_bool_decide; simpl; split; (done || tauto).
    + rewrite <- Hbelow. apply length_filter_iff. intros yx _. fold (value yx).
      simpl. case_bool_decide; simpl; split; (done || tauto).
Qed.

End BayerTexture.

Section MacTexture.
Import ClassicMac.

Lemma level_lt_scaled (k : Z) (L : Q) :
  (inject_Z k / 64 < L)%Q ↔ (inject_Z k < 64 * L)%Q.
Proof.
  destruct L as [n d]. unfold Qlt, Qdiv, Qmult, Qinv, inject_Z. simpl. lia.
Qed.

Lemma scaled_lt_level (k : Z) (L : Q) :
  (L < inject_Z k / 64)%Q ↔ (64 * L < inject_Z k)%Q.
Proof.
  destruct L as [n d]. unfold Qlt, Qdiv, Qmult, Qinv, inject_Z. simpl. lia.
Qed.

(** A table level is below the lightness exactly when its numerator is
    below the ceiling of 64 times the lightness. *)
Lemma level_below_ceiling (k : Z) (L : Q) :
  (inject_Z k / 64 < L)%Q ↔ k < Qceiling (64 * L).
Proof.
  rewrite level_lt_scaled. split.
  - intros Hlt. rewrite Zlt_Qlt.
    eapply Qlt_le_trans; [exact Hlt | apply Qle_ceiling].
  - intros Hlt.
    eapply Qle_lt_trans; [|apply Qceiling_lt].
    rewrite <- Zle_Qle. lia.
Qed.

Lemma level_above_floor (k : Z) (L : Q) :
  (L < inject_Z k / 64)%Q ↔ Qfloor (64 * L) < k.
Proof.
  rewrite scaled_lt_level. split.
  - intros Hlt. rewrite Zlt_Qlt.
    eapply Qle_lt_trans; [apply Qfloor_le | exact Hlt].
  - intros Hlt.
    eapply Qlt_le_trans; [apply Qlt_floor|].
    rewrite <- Zle_Qle. lia.
Qed.

(** At every scanned position the table lookup succeeds, with the level of
    the index [(x & 7) + ((y & 7) << 3)]. *)
Lemma scan_lookup (yx : Z * Z) :
  yx ∈ scan_order ->
  create_classic_mac_threshold_table !! Z.to_nat (table_index yx.2 yx.1)
  = Some (inject_Z (table_value (table_index yx.2 yx.1)) / 64)%Q.
Proof.
  intros Hin. apply table_lookup.
  assert (Hall : Forall (λ yx : Z * Z, 0 ≤ table_index yx.2 yx.1 < 64) scan_order)
    by by_evaluation.
  rewrite Forall_forall in Hall. by apply Hall.
Qed.

Lemma scan_values_count (c : Z) :
  length (filter (λ yx : Z * Z, table_value (table_index yx.2 yx.1) < c) scan_order)
  = clamp64 c.
Proof.
  transitivity (length (filter (λ k, k < c)
     ((λ yx : Z * Z, table_value (table_index yx.2 yx.1)) <$> scan_order))).
  - symmetry.
    apply (length_filter_fmap (λ yx : Z * Z, table_value (table_index yx.2 yx.1))
             (λ k, k < c)).
  - apply count_below_clamped; by_evaluation.
Qed.

(** The texture of [create_mac_dithered_pattern] has 64 pixels; with n the
    ceiling of 64 * lightness cut to 0 .. 64, exactly n of them are white
    and 64 - n black, and the other way round when inverted. *)
Theorem mac_pattern_white_count (lightness : Q) (invert : bool) :
  ∃ pixels,
    create_mac_dithered_pattern lightness invert = Some pixels ∧
    length pixels = 64%nat ∧
    count_colour white pixels
      = (if invert then 64 - clamp64 (Qceiling (64 * lightness))
         else clamp64 (Qceiling (64 * lightness)))%nat ∧
    count_colour black pixels
      = (if invert then clamp64 (Qceiling (64 * lightness))
         else 64 - clamp64 (Qceiling (64 * lightness)))%nat.
Proof.
  eexists. split; [apply pattern_is_map|].
  set (c := Qceiling (64 * lightness)).
  pose proof (scan_values_count c) as Hbelow.
  pose proof (length_filter_not
    (λ yx : Z * Z, table_value (table_index yx.2 yx.1) < c) scan_order) as Hnot.
  change (length scan_order) with 64%nat in Hnot. cbv beta in Hnot.
  split; [by rewrite length_fmap|].
  assert (Hpix : ∀ yx, yx ∈ scan_order ->
    pixel_at lightness invert yx
    = if xorb (bool_decide (table_value (table_index yx.2 yx.1) < c)) invert
      then white else black).
  { intros yx Hin. unfold pixel_at. rewrite (scan_lookup yx Hin). simpl.
    rewrite (bool_decide_ext _ _ (level_below_ceiling _ lightness)). fold c.
    by destruct invert, (bool_decide _). }
  rewrite !count_colour_fmap. split.
  - destruct invert.
    + replace (64 - clamp64 c)%nat
        with (length (filter (λ yx : Z * Z,
                 ¬ table_value (table_index yx.2 yx.1) < c) scan_order)) by lia.
      apply length_filter_iff. intros yx Hin. rewrite (Hpix yx Hin).
      case_bool_decide; simpl; split; (done || tauto).
    + rewrite <- Hbelow.
      apply length_filter_iff. intros yx Hin. rewrite (Hpix yx Hin).
      case_bool_decide; simpl; split; (done || tauto).
  - destruct invert.
    + rewrite <- Hbelow.
      apply length_filter_iff. intros yx Hin. rewrite (Hpix yx Hin).
      case_bool_decide; simpl; split; (done || tauto).
    + replace (64 - clamp64 c)%nat
        with (length (filter (λ yx : Z * Z,
                 ¬ table_value (table_index yx.2 yx.1) < c) scan_order)) by lia.
      apply length_filter_iff. intros yx Hin. rewrite (Hpix yx Hin).
      case_bool_decide; simpl; split; (done || tauto).
Qed.

Lemma shadow_is_map (lightness : Q) :
  create_shadow_pattern lightness
  = Some ((λ yx : Z * Z,
             if bool_decide (table_value (table_index yx.2 yx.1)
                             < Qfloor (64 * lightness) + 1)
             then shadow_gray else black) <$> scan_order).
Proof.
  unfold create_shadow_pattern.
  match goal with |- _ = Some (?h <$> ?l) =>
    change (Some (h <$> l)) with (Some ([] ++ (h <$> l))) end.
  apply (foldl_append_lookup _
           (λ yx : Z * Z, create_classic_mac_threshold_table
                            !! Z.to_nat (table_index yx.2 yx.1))
           (λ _ map_value,
              if bool_decide (lightness < map_value)%Q then black else shadow_gray)).
  - intros acc [y x]. reflexivity.
  - apply Forall_forall. intros yx Hin. eexists. split; [apply (scan_lookup yx Hin)|].
    rewrite (bool_decide_ext _ _ (level_above_floor _ lightness)).
    repeat case_bool_decide; try done; lia.
Qed.

(** The texture of one pass of [create_shadow_patterns] has 64 pixels;
    with n the floor of 64 * lightness plus one, cut to 0 .. 64, exactly
    n of them are gray and 64 - n black. *)
Theorem shadow_pattern_dark_count (lightness : Q) :
  ∃ pixels,
    create_shadow_pattern lightness = Some pixels ∧
    length pixels = 64%nat ∧
    count_colour shadow_gray pixels = clamp64 (Qfloor (64 * lightness) + 1) ∧
    count_colour black pixels
      = (64 - clamp64 (Qfloor (64 * lightness) + 1))%nat.
Proof.
  eexists. split; [apply shadow_is_map|].
  set (c := Qfloor (64 * lightness) + 1).
  pose proof (scan_values_count c) as Hbelow.
  pose proof (length_filter_not
    (λ yx : Z * Z, table_value (table_index yx.2 yx.1) < c) scan_order) as Hnot.
  change (length scan_order) with 64%nat in Hnot. cbv beta in Hnot.
  split; [by rewrite length_fmap|].
  rewrite !count_colour_fmap. split.
  - rewrite <- Hbelow. apply length_filter_iff. intros yx _.
    case_bool_decide; split; (done || tauto).
  - replace (64 - clamp64 c)%nat
      with (length (filter (λ yx : Z * Z,
               ¬ table_value (table_index yx.2 yx.1) < c) scan_order)) by lia.
    apply length_filter_iff. intros yx _.
    case_bool_decide; split; (done || tauto).
Qed.

End MacTexture.

(** * Dithering: every pattern, pixel by pixel *)

Section PatternRules.
Context {pixel : Type} (luma : pixel -> Z).
Implicit Types (image : list (list pixel)).

Lemma zeros_shape (h w : nat) : Np.has_shape h w (Np.zeros h w).
Proof.
  unfold Np.zeros. split; [apply length_replicate|].
  apply Forall_replicate, length_replicate.
Qed.

Lemma fill_strided_shape {A : Type} (r0 c0 step : nat) (v : A)
    (dst : list (list A)) (h w : nat) :
  Np.has_shape h w dst -> Np.has_shape h w (Np.fill_strided r0 c0 step v dst).
Proof.
  intros [Hlen Hrows]. unfold Np.fill_strided. split; [by rewrite length_imap|].
  apply Forall_lookup. intros y row Hrow.
  apply list_lookup_imap_Some in Hrow as (old & Hold & ->).
  rewrite length_imap. rewrite Forall_lookup in Hrows. by apply (Hrows y).
Qed.

Lemma fill_strided_cell {A : Type} (r0 c0 step : nat) (v : A)
    (dst : list (list A)) (y x : nat) :
  Np.cell (Np.fill_strided r0 c0 step v dst) y x
  = (λ old, if bool_decide (r0 ≤ y ∧ c0 ≤ x ∧
                            (y - r0) mod step = 0 ∧ (x - c0) mod step = 0)%nat
            then v else old) <$> Np.cell dst y x.
Proof.
  unfold Np.cell, Np.fill_strided. rewrite list_lookup_imap.
  destruct (dst !! y) as [row|]; simpl; [|done]. by rewrite list_lookup_imap.
Qed.

Lemma zeros_cell (h w y x : nat) :
  (y < h)%nat -> (x < w)%nat -> Np.cell (Np.zeros h w) y x = Some 0%Q.
Proof.
  intros Hy Hx. unfold Np.cell, Np.zeros.
  rewrite lookup_replicate_2 by done. simpl. by rewrite lookup_replicate_2.
Qed.

(** The array [checker] of the checkerboard branch. *)
Lemma checker_cell (h w y x : nat) :
  (y < h)%nat -> (x < w)%nat ->
  Np.cell (Np.fill_strided 1 1 2 (1 # 2)%Q
             (Np.fill_strided 0 0 2 (1 # 2)%Q (Np.zeros h w))) y x
  = Some (if bool_decide (y mod 2 = x mod 2)%nat then 1 # 2 else 0)%Q.
Proof.
  intros Hy Hx. rewrite !fill_strided_cell, zeros_cell by done.
  cbn [fmap option_fmap option_map]. f_equal.
  pose proof (Nat.mod_upper_bound y 2). pose proof (Nat.mod_upper_bound x 2).
  pose proof (Nat.div_mod_eq y 2). pose proof (Nat.div_mod_eq x 2).
  pose proof (Nat.mod_upper_bound (y - 1) 2).
  pose proof (Nat.mod_upper_bound (x - 1) 2).
  pose proof (Nat.div_mod_eq (y - 1) 2). pose proof (Nat.div_mod_eq (x - 1) 2).
  rewrite !Nat.sub_0_r.
  repeat case_bool_decide; try done; exfalso; lia.
Qed.

Lemma greater_scalar_cell (a : list (list Q)) (t : Q) (y x : nat) :
  Np.cell (Np.greater_scalar a t) y x
  = (λ v, bool_decide (t < v)%Q) <$> Np.cell a y x.
Proof. apply mmap_cell. Qed.

Lemma convert_uint8_cell (mask : list (list bool)) (y x : nat) :
  Np.cell (Pil.convert_1 (Np.as_uint8_255 mask)) y x = Np.cell mask y x.
Proof.
  unfold Pil.convert_1, Np.as_uint8_255. rewrite !mmap_cell.
  by destruct (Np.cell mask y x) as [[]|].
Qed.

Lemma to_array_cell image (y x : nat) :
  Np.cell (BackgroundsV2.to_array luma image) y x
  = (λ p, inject_Z (luma p) / 255)%Q <$> Np.cell image y x.
Proof. apply mmap_cell. Qed.

Lemma array_dimensions image (h w : nat) :
  (1 ≤ h)%nat -> Np.has_shape h w image ->
  length (BackgroundsV2.to_array luma image) = h ∧
  length (default [] (head (BackgroundsV2.to_array luma image))) = w.
Proof.
  intros Hh Hshape.
  assert (Harr : Np.has_shape h w (BackgroundsV2.to_array luma image))
    by (by apply mmap_shape).
  split; [by destruct Harr | by apply (head_row_length h w)].
Qed.

(** The statement of [v2_pixel_rule], kept apart for the proofs that build on it. *)
Lemma v2_pixel_rule_core image (pattern_type : string) (h w y x : nat)
    (p : pixel) (t : Q) :
  Np.has_shape h w image ->
  Np.cell image y x = Some p ->
  v2_threshold_at pattern_type y x = Some t ->
  ∃ out,
    BackgroundsV2.apply_ordered_dithering luma image pattern_type = Some out ∧
    Np.cell out y x = Some (bool_decide (t < inject_Z (luma p) / 255)%Q).
Proof.
  intros Hshape Hp Ht.
  destruct (cell_bounds h w image y x p Hshape Hp) as [Hy Hx].
  destruct (array_dimensions image h w ltac:(lia) Hshape) as [Hh Hw].
  assert (Hv : Np.cell (BackgroundsV2.to_array luma image) y x
               = Some (inject_Z (luma p) / 255)%Q)
    by (by rewrite to_array_cell, Hp).
  unfold v2_threshold_at in Ht. unfold BackgroundsV2.apply_ordered_dithering.
  rewrite Hh, Hw.
  destruct (String.eqb_spec pattern_type "threshold") as [->|_].
  { injection Ht as <-. eexists. split; [reflexivity|].
    by rewrite convert_uint8_cell, greater_scalar_cell, Hv. }
  destruct (String.eqb_spec pattern_type "checkerboard") as [->|_].
  { injection Ht as <-. eexists. split; [reflexivity|].
    rewrite convert_uint8_cell, greater_cell, Hv. simpl.
    by rewrite checker_cell. }
  assert (Hbayer : ∀ (M : nat) (matrix : list (list Q)),
    (1 ≤ M)%nat -> Np.has_shape M M matrix ->
    Np.cell matrix (y mod M) (x mod M) = Some t ->
    Np.cell (Pil.convert_1 (Np.as_uint8_255 (Np.greater
               (BackgroundsV2.to_array luma image)
               (BackgroundsV2.threshold_buffer M matrix h w)))) y x
    = Some (bool_decide (t < inject_Z (luma p) / 255)%Q)).
  { intros M matrix HM HMshape Hcell.
    rewrite convert_uint8_cell, greater_cell, Hv. simpl.
    destruct (threshold_buffers_read_cyclically M h w matrix HM HMshape)
      as [_ Hcells].
    destruct (Hcells y x Hy Hx) as [-> _]. by rewrite Hcell. }
  destruct (String.eqb_spec pattern_type "bayer2") as [->|_].
  { eexists. split; [reflexivity|]. apply (Hbayer 2%nat); [lia| |done].
    split; [reflexivity | repeat constructor]. }
  destruct (String.eqb_spec pattern_type "bayer4") as [->|_].
  { eexists. split; [reflexivity|]. apply (Hbayer 4%nat); [lia| |done].
    split; [reflexivity | repeat constructor]. }
  destruct (String.eqb_spec pattern_type "bayer8") as [->|_]; [|done].
  eexists. split; [reflexivity|]. apply (Hbayer 8%nat); [lia| |done].
  split; [reflexivity | repeat constructor].
Qed.

(** The pixel rule of [apply_ordered_dithering]: under every pattern that
    has a threshold, the pixel at (y, x) is white exactly when the sample
    there, over 255, exceeds the threshold of the pattern at (y, x). *)
Theorem v2_pixel_rule image (pattern_type : string) (h w y x : nat)
    (p : pixel) (t : Q) :
  Np.has_shape h w image ->
  Np.cell image y x = Some p ->
  v2_threshold_at pattern_type y x = Some t ->
  ∃ out,
    BackgroundsV2.apply_ordered_dithering luma image pattern_type = Some out ∧
    Np.cell out y x = Some (bool_decide (t < inject_Z (luma p) / 255)%Q).
Proof. intros. eapply v2_pixel_rule_core; eauto. Qed.

Lemma half_below_sample (v : Z) : (1 # 2 < inject_Z v / 255)%Q ↔ 128 ≤ v.
Proof. unfold Qlt, Qdiv, Qmult, Qinv, inject_Z. simpl. lia. Qed.

Lemma zero_below_sample (v : Z) : (0 < inject_Z v / 255)%Q ↔ 1 ≤ v.
Proof. unfold Qlt, Qdiv, Qmult, Qinv, inject_Z. simpl. lia. Qed.

(** In whole samples: under "threshold" a pixel is white exactly from the
    sample 128 on; under "checkerboard" from 128 on where row and column
    are both even or both odd, and from 1 on elsewhere. *)
Theorem v2_threshold_and_checkerboard image (h w y x : nat) (p : pixel) :
  Np.has_shape h w image ->
  Np.cell image y x = Some p ->
  (∃ out,
     BackgroundsV2.apply_ordered_dithering luma image "threshold" = Some out ∧
     Np.cell out y x = Some (bool_decide (128 ≤ luma p))) ∧
  (∃ out,
     BackgroundsV2.apply_ordered_dithering luma image "checkerboard" = Some out ∧
     Np.cell out y x
     = Some (if bool_decide (y mod 2 = x mod 2)%nat
             then bool_decide (128 ≤ luma p) else bool_decide (1 ≤ luma p))).
Proof.
  intros Hshape Hp. split.
  - destruct (v2_pixel_rule_core image "threshold" h w y x p (1 # 2) Hshape Hp eq_refl)
      as (out & Hout & Hcell).
    exists out. split; [done|]. rewrite Hcell. f_equal.
    apply bool_decide_ext, half_below_sample.
  - destruct (v2_pixel_rule_core image "checkerboard" h w y x p
                (if bool_decide (y mod 2 = x mod 2)%nat then 1 # 2 else 0)%Q
                Hshape Hp eq_refl) as (out & Hout & Hcell).
    exists out. split; [done|]. rewrite Hcell. f_equal.
    destruct (bool_decide (y mod 2 = x mod 2)%nat); apply bool_decide_ext;
      [apply half_below_sample | apply zero_below_sample].
Qed.

(** Every known pattern has a threshold at every pixel, and it is not
    negative. *)
Lemma v2_threshold_defined (pattern_type : string) (y x : nat) :
  pattern_type ∈ v2_patterns ->
  ∃ t, v2_threshold_at pattern_type y x = Some t ∧ (0 <= t)%Q.
Proof.
  assert (Hcells : ∀ (M : nat) (matrix : list (list Q)),
    (1 ≤ M)%nat -> Np.has_shape M M matrix ->
    Forall (Forall (λ t, 0 <= t)%Q) matrix ->
    ∃ t, Np.cell matrix (y mod M) (x mod M) = Some t ∧ (0 <= t)%Q).
  { intros M matrix HM Hshape Hpos.
    destruct (cell_is_Some M M matrix (y mod M) (x mod M) Hshape) as [t Ht];
      [apply Nat.mod_upper_bound; lia..|].
    exists t. split; [done|].
    apply cell_Some in Ht as (row & Hrow & Ht).
    rewrite Forall_lookup in Hpos. specialize (Hpos _ _ Hrow).
    rewrite Forall_lookup in Hpos. by apply (Hpos _ _ Ht). }
  unfold v2_patterns. rewrite !elem_of_cons, elem_of_nil.
  intros [->|[->|[->|[->|[->|[]]]]]]; unfold v2_threshold_at; simpl.
  - by eexists.
  - eexists. split; [done|]. by case_bool_decide.
  - apply (Hcells 2%nat); [lia|split; [reflexivity|repeat constructor]|by_evaluation].
  - apply (Hcells 4%nat); [lia|split; [reflexivity|repeat constructor]|by_evaluation].
  - apply (Hcells 8%nat); [lia|split; [reflexivity|repeat constructor]|by_evaluation].
Qed.

(** [apply_ordered_dithering] raises [ValueError] exactly on the names
    outside its five patterns. *)
Lemma v2_unknown_pattern image (pattern_type : string) :
  BackgroundsV2.apply_ordered_dithering luma image pattern_type = None
  ↔ pattern_type ∉ v2_patterns.
Proof.
  unfold v2_patterns. rewrite !elem_of_cons, elem_of_nil.
  unfold BackgroundsV2.apply_ordered_dithering.
  destruct (String.eqb_spec pattern_type "threshold") as [->|H1];
    [simpl; split; [done|tauto]|].
  destruct (String.eqb_spec pattern_type "checkerboard") as [->|H2];
    [simpl; split; [done|tauto]|].
  case_bool_decide as Hin.
  - rewrite !elem_of_cons, elem_of_nil in Hin.
    destruct Hin as [->|[->|[->|[]]]]; simpl; (split; [done|tauto]).
  - rewrite !elem_of_cons, elem_of_nil in Hin. simpl. split; [tauto|done].
Qed.

(** Under each of the five patterns, brightening a pixel never turns it
    from white to black, and a sample of 0 is black. *)
Theorem v2_dithering_monotone image1 image2 (pattern_type : string)
    (h w y x : nat) (p1 p2 : pixel) :
  Np.has_shape h w image1 -> Np.has_shape h w image2 ->
  Np.cell image1 y x = Some p1 -> Np.cell image2 y x = Some p2 ->
  luma p1 ≤ luma p2 ->
  pattern_type ∈ v2_patterns ->
  ∃ out1 out2 white1 white2,
    BackgroundsV2.apply_ordered_dithering luma image1 pattern_type = Some out1 ∧
    BackgroundsV2.apply_ordered_dithering luma image2 pattern_type = Some out2 ∧
    Np.cell out1 y x = Some white1 ∧ Np.cell out2 y x = Some white2 ∧
    (white1 = true -> white2 = true) ∧
    (luma p1 ≤ 0 -> white1 = false).
Proof.
  intros Hs1 Hs2 Hp1 Hp2 Hle Hin.
  destruct (v2_threshold_defined pattern_type y x Hin) as (t & Ht & Hpos).
  destruct (v2_pixel_rule_core image1 pattern_type h w y x p1 t Hs1 Hp1 Ht)
    as (out1 & Hout1 & Hc1).
  destruct (v2_pixel_rule_core image2 pattern_type h w y x p2 t Hs2 Hp2 Ht)
    as (out2 & Hout2 & Hc2).
  exists out1, out2. do 2 eexists.
  split; [done|]. split; [done|]. split; [exact Hc1|]. split; [exact Hc2|].
  assert (Hmono : ∀ a b : Z, a ≤ b -> (inject_Z a / 255 <= inject_Z b / 255)%Q).
  { intros a b Hab. unfold Qle, Qdiv, Qmult, Qinv, inject_Z. simpl. lia. }
  split.
  - rewrite !bool_decide_eq_true. intros Hlt.
    eapply Qlt_le_trans; [exact Hlt | by apply Hmono].
  - intros Hdark. apply bool_decide_eq_false. intros Hlt.
    apply (Qlt_irrefl t). eapply Qlt_le_trans; [exact Hlt|].
    eapply Qle_trans; [apply (Hmono _ 0 Hdark)|].
    eapply Qle_trans; [|exact Hpos]. by_evaluation.
Qed.

(** Under "bayer8" the matrix of compress-backgrounds-v2.py has 24 cells
    that are 1 or more, and a pixel that meets one of them is black
    whatever its 8-bit sample, 255 included. *)
Theorem v2_bayer8_dead_pixels image (h w y x : nat) (p : pixel) (t : Q) :
  Np.has_shape h w image ->
  Np.cell image y x = Some p ->
  luma p ≤ 255 ->
  Np.cell BackgroundsV2.bayer8 (y mod 8) (x mod 8) = Some t ->
  (1 <= t)%Q ->
  length (filter (λ c, 1 <= c)%Q (Np.cells BackgroundsV2.bayer8)) = 24%nat ∧
  ∃ out,
    BackgroundsV2.apply_ordered_dithering luma image "bayer8" = Some out ∧
    Np.cell out y x = Some false.
Proof.
  intros Hshape Hp H8bit Ht Hbig. split; [reflexivity|].
  destruct (v2_pixel_rule_core image "bayer8" h w y x p t Hshape Hp Ht)
    as (out & Hout & Hcell).
  exists out. split; [done|]. rewrite Hcell. f_equal.
  apply bool_decide_eq_false. intros Hlt.
  apply (Qlt_irrefl t). eapply Qlt_le_trans; [exact Hlt|].
  eapply Qle_trans; [|exact Hbig].
  unfold Qle, Qdiv, Qmult, Qinv, inject_Z. simpl. lia.
Qed.

End PatternRules.

Lemma v2_pixel_rule_witness :
  ∃ out,
    BackgroundsV2.apply_ordered_dithering id two_pixel_image "checkerboard"
      = Some out ∧
    Np.cell out 0 1 = Some (bool_decide (0 < inject_Z (id 200%Z) / 255)%Q).
Proof.
  apply (v2_pixel_rule id two_pixel_image "checkerboard" 1 2 0 1 200 0%Q);
    [split; [reflexivity | repeat constructor] | reflexivity | reflexivity].
Defined.

Lemma v2_threshold_and_checkerboard_witness :
  (∃ out,
     BackgroundsV2.apply_ordered_dithering id two_pixel_image "threshold" = Some out ∧
     Np.cell out 0 1 = Some (bool_decide (128 ≤ id 200))) ∧
  (∃ out,
     BackgroundsV2.apply_ordered_dithering id two_pixel_image "checkerboard"
       = Some out ∧
     Np.cell out 0 1
     = Some (if bool_decide (0 mod 2 = 1 mod 2)%nat
             then bool_decide (128 ≤ id 200) else bool_decide (1 ≤ id 200))).
Proof.
  apply (v2_threshold_and_checkerboard id two_pixel_image 1 2 0 1 200);
    [split; [reflexivity | repeat constructor] | reflexivity].
Defined.

Lemma v2_dithering_monotone_witness :
  ∃ out1 out2 white1 white2,
    BackgroundsV2.apply_ordered_dithering id two_pixel_image "bayer4" = Some out1 ∧
    BackgroundsV2.apply_ordered_dithering id [[200; 250]] "bayer4" = Some out2 ∧
    Np.cell out1 0 0 = Some white1 ∧ Np.cell out2 0 0 = Some white2 ∧
    (white1 = true -> white2 = true) ∧
    (id 100 ≤ 0 -> white1 = false).
Proof.
  apply (v2_dithering_monotone id two_pixel_image [[200; 250]] "bayer4"
           1 2 0 0 100 200);
    [split; [reflexivity | repeat constructor]
    |split; [reflexivity | repeat constructor]
    |reflexivity | reflexivity | unfold id; lia
    |unfold v2_patterns; rewrite !elem_of_cons; tauto].
Defined.

Lemma v2_bayer8_dead_pixels_witness :
  length (filter (λ c, 1 <= c)%Q (Np.cells BackgroundsV2.bayer8)) = 24%nat ∧
  ∃ out,
    BackgroundsV2.apply_ordered_dithering id [[255; 255; 255; 255; 255; 255]] "bayer8"
      = Some out ∧
    Np.cell out 0 5 = Some false.
Proof.
  eapply (v2_bayer8_dead_pixels id [[255; 255; 255; 255; 255; 255]] 1 6 0 5 255);
    [split; [reflexivity | repeat constructor] | reflexivity | unfold id; lia
    | reflexivity | by_evaluation].
Defined.

(** For a 16x16 image of mode L with every sample p, 0 <= p <= 255,
    processing with bayer4 gives in every 4x4 tile the cells of Bayer(4)
    with a level below n white, where n is 16 * p / 255 rounded up: n white
    and 16 - n black pixels per tile. *)
Theorem bayer4_uniform_fill (p : Z) :
  0 ≤ p ≤ 255 ->
  BackgroundsV2.process_image id (uniform_image p) "bayer4"
    = Some (Np.tile (fill_tile ((16 * p + 254) / 255)) 4 4) ∧
  tiles_filled (Np.tile (fill_tile ((16 * p + 254) / 255)) 4 4)
    (Z.to_nat ((16 * p + 254) / 255)) (16 - Z.to_nat ((16 * p + 254) / 255)).
Proof.
  intros Hp.
  assert (Hall : Forall (λ p,
      BackgroundsV2.process_image id (uniform_image p) "bayer4"
        = Some (Np.tile (fill_tile ((16 * p + 254) / 255)) 4 4) ∧
      tiles_filled (Np.tile (fill_tile ((16 * p + 254) / 255)) 4 4)
        (Z.to_nat ((16 * p + 254) / 255)) (16 - Z.to_nat ((16 * p + 254) / 255)))
    (seqZ 0 256)) by by_evaluation.
  rewrite Forall_forall in Hall. apply Hall, elem_of_seqZ. lia.
Qed.

Lemma bayer4_uniform_fill_witness :
  BackgroundsV2.process_image id (uniform_image 200) "bayer4"
    = Some (Np.tile (fill_tile ((16 * 200 + 254) / 255)) 4 4) ∧
  tiles_filled (Np.tile (fill_tile ((16 * 200 + 254) / 255)) 4 4)
    (Z.to_nat ((16 * 200 + 254) / 255)) (16 - Z.to_nat ((16 * 200 + 254) / 255)).
Proof. apply (bayer4_uniform_fill 200). lia. Defined.

(** * compress-backgrounds-v3.py: every pattern, pixel by pixel *)

Section V3Patterns.
Context {pixel : Type} (luma : pixel -> Z)
        (floyd_steinberg : list (list Z) -> list (list bool)).
Implicit Types (image : list (list pixel)).

(** Each of the five matrices is square, of side 2, 3, 4 or 8, with every
    cell in [0, 1). *)
Lemma v3_matrix_facts (pattern_name : string) (matrix : list (list Q)) :
  v3_threshold_matrix pattern_name = Some matrix ->
  (1 ≤ length matrix)%nat ∧
  Np.has_shape (length matrix) (length matrix) matrix ∧
  Forall (Forall (λ t, 0 <= t ∧ t < 1)%Q) matrix.
Proof.
  unfold v3_threshold_matrix.
  repeat (destruct (String.eqb _ _);
          [intros [= <-]; split; [simpl; lia|]; split; by_evaluation|]).
  done.
Qed.

(** With a matrix, the function is the thresholder on the tiled matrix. *)
Lemma v3_ordered_path image (pattern_name : string) (matrix : list (list Q)) :
  v3_threshold_matrix pattern_name = Some matrix ->
  BackgroundsV3.apply_ordered_dither luma floyd_steinberg image pattern_name
  = Some (thresholder (BackgroundsV3.to_array luma image)
            (BackgroundsV3.threshold_buffer matrix
               (length (BackgroundsV3.to_array luma image))
               (length (default [] (head (BackgroundsV3.to_array luma image)))))).
Proof.
  unfold v3_threshold_matrix, BackgroundsV3.apply_ordered_dither.
  repeat (destruct (String.eqb _ _); [intros [= <-]; reflexivity|]).
  done.
Qed.

(** The statement of [v3_pixel_rule], kept apart for the proofs that build on it. *)
Lemma v3_pixel_rule_core image (pattern_name : string) (matrix : list (list Q))
    (h w y x : nat) (p : pixel) :
  v3_threshold_matrix pattern_name = Some matrix ->
  Np.has_shape h w image ->
  Np.cell image y x = Some p ->
  ∃ out t,
    BackgroundsV3.apply_ordered_dither luma floyd_steinberg image pattern_name
      = Some out ∧
    Np.cell matrix (y mod length matrix) (x mod length matrix) = Some t ∧
    Np.cell out y x = Some (bool_decide (t < inject_Z (luma p) / 255)%Q) ∧
    (luma p ≤ 0 -> Np.cell out y x = Some false) ∧
    (255 ≤ luma p -> Np.cell out y x = Some true).
Proof.
  intros Hm Hshape Hp.
  destruct (v3_matrix_facts _ _ Hm) as (HM & HMshape & Hrange).
  destruct (cell_bounds h w image y x p Hshape Hp) as [Hy Hx].
  destruct (cell_is_Some _ _ matrix (y mod length matrix) (x mod length matrix)
              HMshape) as [t Ht]; [apply Nat.mod_upper_bound; lia..|].
  assert (Ht01 : (0 <= t ∧ t < 1)%Q).
  { apply cell_Some in Ht as (row & Hrow & Ht).
    rewrite Forall_lookup in Hrange. specialize (Hrange _ _ Hrow).
    rewrite Forall_lookup in Hrange. by apply (Hrange _ _ Ht). }
  assert (Harr : Np.has_shape h w (BackgroundsV3.to_array luma image))
    by (by apply mmap_shape).
  assert (Hcell : Np.cell (thresholder (BackgroundsV3.to_array luma image)
            (BackgroundsV3.threshold_buffer matrix
               (length (BackgroundsV3.to_array luma image))
               (length (default [] (head (BackgroundsV3.to_array luma image))))))
            y x = Some (bool_decide (t < inject_Z (luma p) / 255)%Q)).
  { rewrite (head_row_length h w _ ltac:(lia) Harr).
    destruct Harr as [-> _]. rewrite thresholder_cell.
    unfold BackgroundsV3.to_array. rewrite mmap_cell, Hp. simpl.
    destruct (threshold_buffers_read_cyclically (length matrix) h w matrix
                HM HMshape) as [_ Hcells].
    destruct (Hcells y x Hy Hx) as [_ ->]. by rewrite Ht. }
  eexists. exists t. split; [by apply v3_ordered_path|].
  split; [done|]. split; [exact Hcell|].
  rewrite Hcell. destruct Ht01 as [H0 H1]. split.
  - intros Hdark. f_equal. apply bool_decide_eq_false. intros Hlt.
    apply (Qlt_irrefl t). eapply Qlt_le_trans; [exact Hlt|].
    eapply Qle_trans; [|exact H0].
    unfold Qle, Qdiv, Qmult, Qinv, inject_Z. simpl. lia.
  - intros Hbright. f_equal. apply bool_decide_eq_true.
    eapply Qlt_le_trans; [exact H1|].
    unfold Qle, Qdiv, Qmult, Qinv, inject_Z. simpl. lia.
Qed.

(** The pixel rule of [apply_ordered_dither]: under the five ordered
    patterns the pixel at (y, x) is white exactly when the sample there,
    over 255, exceeds the matrix cell (y mod M, x mod M); that cell is in
    [0, 1), so a sample of 0 is black and a sample of 255 white. *)
Theorem v3_pixel_rule image (pattern_name : string) (matrix : list (list Q))
    (h w y x : nat) (p : pixel) :
  v3_threshold_matrix pattern_name = Some matrix ->
  Np.has_shape h w image ->
  Np.cell image y x = Some p ->
  ∃ out t,
    BackgroundsV3.apply_ordered_dither luma floyd_steinberg image pattern_name
      = Some out ∧
    Np.cell matrix (y mod length matrix) (x mod length matrix) = Some t ∧
    Np.cell out y x = Some (bool_decide (t < inject_Z (luma p) / 255)%Q) ∧
    (luma p ≤ 0 -> Np.cell out y x = Some false) ∧
    (255 ≤ luma p -> Np.cell out y x = Some true).
Proof. intros. eapply v3_pixel_rule_core; eauto. Qed.

Lemma quarter_below_sample (v : Z) : (1 # 4 < inject_Z v / 255)%Q ↔ 64 ≤ v.
Proof. unfold Qlt, Qdiv, Qmult, Qinv, inject_Z. simpl. lia. Qed.

Lemma three_quarters_below_sample (v : Z) : (3 # 4 < inject_Z v / 255)%Q ↔ 192 ≤ v.
Proof. unfold Qlt, Qdiv, Qmult, Qinv, inject_Z. simpl. lia. Qed.

Lemma third_below_sample (v : Z) : (33 # 100 < inject_Z v / 255)%Q ↔ 85 ≤ v.
Proof. unfold Qlt, Qdiv, Qmult, Qinv, inject_Z. simpl. lia. Qed.

Lemma two_thirds_below_sample (v : Z) : (66 # 100 < inject_Z v / 255)%Q ↔ 169 ≤ v.
Proof. unfold Qlt, Qdiv, Qmult, Qinv, inject_Z. simpl. lia. Qed.

(** In whole samples: under "simple" a pixel is white from the sample 64
    on where row and column are both even or both odd and from 192 on
    elsewhere; under "diagonal" from 1 on where column and row agree modulo
    3, from 85 on one column further, and from 169 on two columns
    further. *)
Theorem v3_simple_and_diagonal image (h w y x : nat) (p : pixel) :
  Np.has_shape h w image ->
  Np.cell image y x = Some p ->
  (∃ out,
     BackgroundsV3.apply_ordered_dither luma floyd_steinberg image "simple"
       = Some out ∧
     Np.cell out y x
     = Some (if bool_decide (y mod 2 = x mod 2)%nat
             then bool_decide (64 ≤ luma p) else bool_decide (192 ≤ luma p))) ∧
  (∃ out,
     BackgroundsV3.apply_ordered_dither luma floyd_steinberg image "diagonal"
       = Some out ∧
     Np.cell out y x
     = Some (if bool_decide (x mod 3 = y mod 3)%nat then bool_decide (1 ≤ luma p)
             else if bool_decide (x mod 3 = (y + 1) mod 3)%nat
                  then bool_decide (85 ≤ luma p)
                  else bool_decide (169 ≤ luma p))).
Proof.
  intros Hshape Hp. split.
  - destruct (v3_pixel_rule_core image "simple" _ h w y x p eq_refl Hshape Hp)
      as (out & t & Hout & Ht & Hcell & _).
    exists out. split; [done|]. rewrite Hcell. f_equal.
    change (length _) with 2%nat in Ht.
    pose proof (Nat.mod_upper_bound y 2 ltac:(lia)) as Hy2.
    pose proof (Nat.mod_upper_bound x 2 ltac:(lia)) as Hx2.
    destruct (y mod 2)%nat as [|[|]], (x mod 2)%nat as [|[|]]; try lia;
      injection Ht as <-; simpl;
      (apply bool_decide_ext;
       first [apply quarter_below_sample | apply three_quarters_below_sample]).
  - destruct (v3_pixel_rule_core image "diagonal" _ h w y x p eq_refl Hshape Hp)
      as (out & t & Hout & Ht & Hcell & _).
    exists out. split; [done|]. rewrite Hcell. f_equal.
    change (length _) with 3%nat in Ht.
    assert (Hy1 : ((y + 1) mod 3 = (y mod 3 + 1) mod 3)%nat)
      by (rewrite (Nat.Div0.add_mod y 1 3); reflexivity).
    rewrite Hy1.
    pose proof (Nat.mod_upper_bound y 3 ltac:(lia)) as Hy3.
    pose proof (Nat.mod_upper_bound x 3 ltac:(lia)) as Hx3.
    destruct (y mod 3)%nat as [|[|[|]]], (x mod 3)%nat as [|[|[|]]]; try lia;
      injection Ht as <-; simpl;
      (apply bool_decide_ext;
       first [apply zero_below_sample | apply third_below_sample
             | apply two_thirds_below_sample]).
Qed.

End V3Patterns.

Lemma v3_pixel_rule_witness :
  ∃ out t,
    BackgroundsV3.apply_ordered_dither id (λ _, []) two_pixel_image "bayer8"
      = Some out ∧
    Np.cell BackgroundsV3.bayer8 (0 mod length BackgroundsV3.bayer8)
                                 (1 mod length BackgroundsV3.bayer8) = Some t ∧
    Np.cell out 0 1 = Some (bool_decide (t < inject_Z (id 200%Z) / 255)%Q) ∧
    (id 200 ≤ 0 -> Np.cell out 0 1 = Some false) ∧
    (255 ≤ id 200 -> Np.cell out 0 1 = Some true).
Proof.
  apply (v3_pixel_rule id (λ _, []) two_pixel_image "bayer8" BackgroundsV3.bayer8
           1 2 0 1 200);
    [reflexivity | split; [reflexivity | repeat constructor] | reflexivity].
Defined.

Lemma v3_simple_and_diagonal_witness :
  (∃ out,
     BackgroundsV3.apply_ordered_dither id (λ _, []) two_pixel_image "simple"
       = Some out ∧
     Np.cell out 0 1
     = Some (if bool_decide (0 mod 2 = 1 mod 2)%nat
             then bool_decide (64 ≤ id 200) else bool_decide (192 ≤ id 200))) ∧
  (∃ out,
     BackgroundsV3.apply_ordered_dither id (λ _, []) two_pixel_image "diagonal"
       = Some out ∧
     Np.cell out 0 1
     = Some (if bool_decide (1 mod 3 = 0 mod 3)%nat then bool_decide (1 ≤ id 200)
             else if bool_decide (1 mod 3 = (0 + 1) mod 3)%nat
                  then bool_decide (85 ≤ id 200)
                  else bool_decide (169 ≤ id 200))).
Proof.
  apply (v3_simple_and_diagonal id (λ _, []) two_pixel_image 1 2 0 1 200);
    [split; [reflexivity | repeat constructor] | reflexivity].
Defined.

(** * The cropper: what it leaves alone *)

Section CropperMore.
Context {pixel : Type} (luma : pixel -> Z).
Implicit Types (image : list (list pixel)).

Lemma crop_full {A : Type} (h w : nat) (m : list (list A)) :
  Np.has_shape h w m -> Pil.crop (0, 0, w, h)%nat m = m.
Proof.
  intros Hshape. apply (array_ext h w); [|done|].
  - replace h with (h - 0)%nat at 1 by lia. replace w with (w - 0)%nat at 1 by lia.
    by apply (crop_shape 0 0 w h h w).
  - intros y x Hy Hx. by rewrite crop_cell by lia.
Qed.

(** The statement of [crop_keeps_border_touching], kept apart for the proofs that build on it. *)
Lemma crop_keeps_border_touching_core image (tolerance : Z) (h w : nat) :
  Np.has_shape h w image ->
  (∃ x, bright luma tolerance image 0 x) ->
  (∃ x, bright luma tolerance image (h - 1) x) ->
  (∃ y, bright luma tolerance image y 0) ->
  (∃ y, bright luma tolerance image y (w - 1)) ->
  BackgroundsV2.crop_black_background luma image tolerance = image.
Proof.
  intros Hshape [xt Ht] [xb Hb] [yl Hl] [yr Hr].
  destruct (crop_to_tight_box luma image tolerance h w Hshape)
    as (x0 & y0 & x1 & y1 & Htight & Hx & Hy & Hcrop & _); [eauto|].
  destruct Htight as (Hin & _).
  destruct (Hin _ _ Ht) as [_ Ht'], (Hin _ _ Hb) as [_ Hb'],
           (Hin _ _ Hl) as [Hl' _], (Hin _ _ Hr) as [Hr' _].
  assert (x0 = 0 ∧ y0 = 0 ∧ x1 = w ∧ y1 = h)%nat as (-> & -> & -> & ->) by lia.
  rewrite Hcrop. by apply crop_full.
Qed.

(** An image with a pixel above the tolerance in its first and last row
    and in its first and last column is returned whole. *)
Theorem crop_keeps_border_touching image (tolerance : Z) (h w : nat) :
  Np.has_shape h w image ->
  (∃ x, bright luma tolerance image 0 x) ->
  (∃ x, bright luma tolerance image (h - 1) x) ->
  (∃ y, bright luma tolerance image y 0) ->
  (∃ y, bright luma tolerance image y (w - 1)) ->
  BackgroundsV2.crop_black_background luma image tolerance = image.
Proof. intros. eapply crop_keeps_border_touching_core; eauto. Qed.

(** Cropping a second time changes nothing. *)
Theorem crop_idempotent image (tolerance : Z) (h w : nat) :
  Np.has_shape h w image ->
  BackgroundsV2.crop_black_background luma
    (BackgroundsV2.crop_black_background luma image tolerance) tolerance
  = BackgroundsV2.crop_black_background luma image tolerance.
Proof.
  intros Hshape.
  destruct (Pil.nonzero_coords
              (Pil.point (λ p, if bool_decide (tolerance < p) then 255 else 0)
                 (Np.mmap luma image))) as [|[xb yb] rest] eqn:Hhits.
  { assert (Hsame : BackgroundsV2.crop_black_background luma image tolerance = image).
    { unfold BackgroundsV2.crop_black_background, Pil.getbbox. by rewrite Hhits. }
    by rewrite !Hsame. }
  assert (Hbright : bright luma tolerance image yb xb).
  { apply mask_nonzero, nonzero_coords_spec. rewrite Hhits. apply list_elem_of_here. }
  destruct (crop_to_tight_box luma image tolerance h w Hshape)
    as (x0 & y0 & x1 & y1 & Htight & Hx & Hy & _ & Hs & Hc); [eauto|].
  destruct Htight as (Hin & [yl Hl] & [yr Hr] & [xu Hu] & [xd Hd]).
  set (cropped := BackgroundsV2.crop_black_background luma image tolerance) in *.
  assert (Hmove : ∀ y x, bright luma tolerance image y x ->
                         bright luma tolerance cropped (y - y0) (x - x0)).
  { intros y x Hyx. destruct (Hin _ _ Hyx) as [Hxr Hyr].
    destruct Hyx as (p & Hp & Hlt). exists p. split; [|done].
    rewrite Hc by lia. rewrite <- Hp. f_equal; lia. }
  apply (crop_keeps_border_touching_core cropped tolerance (y1 - y0) (x1 - x0) Hs).
  - exists (xu - x0)%nat. replace 0%nat with (y0 - y0)%nat by lia. by apply Hmove.
  - exists (xd - x0)%nat.
    replace (y1 - y0 - 1)%nat with (y1 - 1 - y0)%nat by lia. by apply Hmove.
  - exists (yl - y0)%nat. replace 0%nat with (x0 - x0)%nat by lia. by apply Hmove.
  - exists (yr - y0)%nat.
    replace (x1 - x0 - 1)%nat with (x1 - 1 - x0)%nat by lia. by apply Hmove.
Qed.

(** With a negative tolerance every pixel of an image of non-negative
    samples counts as bright, and the image is returned whole; with a
    tolerance of 255 or more on 8-bit samples none does, and the image is
    returned whole as well. *)
Theorem crop_extreme_tolerance image (tolerance : Z) (h w : nat) :
  Np.has_shape h w image ->
  Forall (Forall (λ p, 0 ≤ luma p ≤ 255)) image ->
  tolerance < 0 ∨ 255 ≤ tolerance ->
  BackgroundsV2.crop_black_background luma image tolerance = image.
Proof.
  intros Hshape Hrange [Hneg|Hbig].
  - assert (Hall : ∀ y x, (y < h)%nat -> (x < w)%nat ->
                          bright luma tolerance image y x).
    { intros y x Hy Hx.
      destruct (cell_is_Some h w image y x Hshape Hy Hx) as [p Hp].
      exists p. split; [done|].
      apply cell_Some in Hp as (row & Hrow & Hp).
      rewrite Forall_lookup in Hrange. specialize (Hrange _ _ Hrow).
      rewrite Forall_lookup in Hrange. specialize (Hrange _ _ Hp). simpl in Hrange.
      lia. }
    destruct (decide (h = 0 ∨ w = 0)%nat) as [Hempty|Hfull].
    + apply crop_nothing_bright. intros y x (p & Hp & _).
      destruct (cell_bounds h w image y x p Hshape Hp). lia.
    + apply (crop_keeps_border_touching_core image tolerance h w Hshape);
        [exists 0%nat | exists 0%nat | exists 0%nat | exists 0%nat];
        apply Hall; lia.
  - apply crop_nothing_bright. intros y x (p & Hp & Hlt).
    apply cell_Some in Hp as (row & Hrow & Hp).
    rewrite Forall_lookup in Hrange. specialize (Hrange _ _ Hrow).
    rewrite Forall_lookup in Hrange. specialize (Hrange _ _ Hp). simpl in Hrange.
    lia.
Qed.

End CropperMore.

(** A 3x4 image of mode L with a dark frame around two bright pixels. *)
Lemma crop_idempotent_witness :
  BackgroundsV2.crop_black_background id
    (BackgroundsV2.crop_black_background id
       [[0; 0; 0; 0]; [0; 90; 5; 30]; [0; 0; 0; 0]] 10) 10
  = BackgroundsV2.crop_black_background id
      [[0; 0; 0; 0]; [0; 90; 5; 30]; [0; 0; 0; 0]] 10.
Proof.
  apply (crop_idempotent id [[0; 0; 0; 0]; [0; 90; 5; 30]; [0; 0; 0; 0]] 10 3 4).
  split; [reflexivity | repeat constructor].
Defined.

Lemma crop_keeps_border_touching_witness :
  BackgroundsV2.crop_black_background id [[0; 50; 0]; [60; 0; 70]; [0; 80; 0]] 10
  = [[0; 50; 0]; [60; 0; 70]; [0; 80; 0]].
Proof.
  apply (crop_keeps_border_touching id [[0; 50; 0]; [60; 0; 70]; [0; 80; 0]] 10 3 3);
    [split; [reflexivity | repeat constructor]
    |exists 1%nat|exists 1%nat|exists 1%nat|exists 1%nat];
    (eexists; split; [reflexivity | unfold id; lia]).
Defined.

Lemma crop_extreme_tolerance_witness :
  BackgroundsV2.crop_black_background id [[0; 50; 0]; [0; 0; 70]] (-1)
  = [[0; 50; 0]; [0; 0; 70]].
Proof.
  apply (crop_extreme_tolerance id [[0; 50; 0]; [0; 0; 70]] (-1) 2 3);
    [split; [reflexivity | repeat constructor]
    |repeat constructor; unfold id; lia
    |left; lia].
Defined.

(** * The drivers: counters and exit codes *)

Section DriverMore.

(** The loop over the files counts each file once: [processed] is the
    number of files that went through and [failed] the number that did
    not. *)
Lemma counters_split (ok : string -> bool) (files : list string) (p f : Z) :
  foldl (λ '(processed, failed) png_file,
           if ok png_file then (processed + 1, failed)
           else (processed, failed + 1)) (p, f) files
  = (p + Z.of_nat (length (filter (λ file, ok file = true) files)),
     f + Z.of_nat (length (filter (λ file, ok file = false) files))).
Proof.
  revert p f. induction files as [|file files IH]; intros p f; simpl.
  - f_equal; lia.
  - rewrite !filter_cons. destruct (ok file) eqn:Hok; rewrite IH; simpl;
      f_equal; lia.
Qed.

Theorem count_files_totals (process_png_file : string -> string -> bool)
    (pattern : string) (png_files : list string) :
  ∃ processed failed,
    BackgroundsV2.count_files process_png_file pattern png_files
      = (processed, failed) ∧
    processed
      = Z.of_nat (length (filter (λ f, process_png_file f pattern = true) png_files)) ∧
    failed
      = Z.of_nat (length (filter (λ f, process_png_file f pattern = false) png_files)) ∧
    processed + failed = Z.of_nat (length png_files) ∧
    BackgroundsV3.count_files process_png_file pattern png_files
      = (processed, failed) ∧
    BackgroundsV1.count_files (λ f, process_png_file f pattern) png_files
      = (processed, failed).
Proof.
  do 2 eexists.
  split; [apply (counters_split (λ f, process_png_file f pattern))|].
  split; [reflexivity|]. split; [reflexivity|]. split.
  - pose proof (length_filter_not (λ f, process_png_file f pattern = true)
                  png_files) as Hsum.
    rewrite (length_filter_iff (λ f, process_png_file f pattern = false)
               (λ f, ¬ process_png_file f pattern = true)).
    + simpl. lia.
    + intros f _. by destruct (process_png_file f pattern).
  - split; apply (counters_split (λ f, process_png_file f pattern)).
Qed.

(** compress-backgrounds.py exits with 0 exactly when the source directory
    exists, holds at least one PNG file, and every file it processed (the
    first five under [--test], all of them otherwise) went through; in
    every other case it exits with 1.  Files beyond the fifth do not count
    under [--test]. *)
Theorem v1_main_exit_code (source_exists : bool) (rglob_png : list string)
    (process_png_file : string -> bool) (test : bool) :
  BackgroundsV1.main source_exists rglob_png process_png_file test
  = if bool_decide (source_exists = true ∧ rglob_png ≠ [] ∧
                    Forall (λ f, process_png_file f = true)
                           (if test then take 5 rglob_png else rglob_png))
    then 0 else 1.
Proof.
  destruct (v1_exit_code source_exists rglob_png process_png_file test)
    as [Hyes Hno].
  case_bool_decide; [by apply Hyes | by apply Hno].
Qed.

(** compress-backgrounds-v2.py exits with 0 under [--preview], whatever is
    on disk; otherwise with 0 exactly when the source directory exists,
    holds at least one PNG file, and every file it processed (the first
    five under [--test]) went through, and with 1 in every other case. *)
Theorem v2_main_exit_code (source_exists : bool) (rglob_png : list string)
    (process_png_file : string -> string -> bool) (preview test : bool)
    (pattern : string) :
  BackgroundsV2.main source_exists rglob_png process_png_file preview test pattern
  = if preview then 0
    else if bool_decide (source_exists = true ∧ rglob_png ≠ [] ∧
                         Forall (λ f, process_png_file f pattern = true)
                                (if test then take 5 rglob_png else rglob_png))
         then 0 else 1.
Proof.
  destruct preview; [reflexivity|].
  destruct (v2_exit_code source_exists rglob_png process_png_file test pattern)
    as [Hyes Hno].
  case_bool_decide; [by apply Hyes | by apply Hno].
Qed.

End DriverMore.

(** * The checkerboard texture *)

(** The pixel list of [create_checkerboard_texture] has 64 entries; the
    pixel of (x, y), at place y*8 + x, has the first colour when x + y is
    even and the second when it is odd, and its right and lower neighbours
    have the other colour, also across the edge to column 0 and row 0: the
    texture continues as a checkerboard when it is tiled. *)
Theorem checkerboard_texture_tiles (color1 color2 : Z * Z * Z) (x y : Z) :
  0 ≤ x < 8 -> 0 ≤ y < 8 ->
  length (TextureAssets.create_checkerboard_texture color1 color2) = 64%nat ∧
  TextureAssets.create_checkerboard_texture color1 color2 !! Z.to_nat (y * 8 + x)
    = Some (if Z.even (x + y) then color1 else color2) ∧
  TextureAssets.create_checkerboard_texture color1 color2
    !! Z.to_nat (y * 8 + (x + 1) `mod` 8)
    = Some (if Z.even (x + y) then color2 else color1) ∧
  TextureAssets.create_checkerboard_texture color1 color2
    !! Z.to_nat ((y + 1) `mod` 8 * 8 + x)
    = Some (if Z.even (x + y) then color2 else color1).
Proof.
  intros Hx Hy.
  set (pixels := TextureAssets.create_checkerboard_texture color1 color2).
  vm_compute in pixels.
  assert (Hxs : x = 0 ∨ x = 1 ∨ x = 2 ∨ x = 3 ∨ x = 4 ∨ x = 5 ∨ x = 6 ∨ x = 7)
    by lia.
  assert (Hys : y = 0 ∨ y = 1 ∨ y = 2 ∨ y = 3 ∨ y = 4 ∨ y = 5 ∨ y = 6 ∨ y = 7)
    by lia.
  destruct Hxs as [->|[->|[->|[->|[->|[->|[->| ->]]]]]]];
    destruct Hys as [->|[->|[->|[->|[->|[->|[->| ->]]]]]]];
    repeat split; reflexivity.
Qed.

Lemma checkerboard_texture_tiles_witness :
  length (TextureAssets.create_checkerboard_texture (255, 255, 255) (0, 0, 0))
    = 64%nat ∧
  TextureAssets.create_checkerboard_texture (255, 255, 255) (0, 0, 0)
    !! Z.to_nat (2 * 8 + 7)
    = Some (if Z.even (7 + 2) then (255, 255, 255) else (0, 0, 0)) ∧
  TextureAssets.create_checkerboard_texture (255, 255, 255) (0, 0, 0)
    !! Z.to_nat (2 * 8 + (7 + 1) `mod` 8)
    = Some (if Z.even (7 + 2) then (0, 0, 0) else (255, 255, 255)) ∧
  TextureAssets.create_checkerboard_texture (255, 255, 255) (0, 0, 0)
    !! Z.to_nat ((2 + 1) `mod` 8 * 8 + 7)
    = Some (if Z.even (7 + 2) then (0, 0, 0) else (255, 255, 255)).
Proof.
  apply (checkerboard_texture_tiles (255, 255, 255) (0, 0, 0) 7 2); lia.
Defined.

(** * The thresholding lines of compress-backgrounds-v2.py and -v3.py *)

Section ThresholdingLines.
Context {pixel : Type} (luma : pixel -> Z)
        (floyd_steinberg : list (list Z) -> list (list bool)).
Implicit Types (image : list (list pixel)).

(** C4: the thresholder gives, for every grayscale buffer and every
    threshold buffer of the same shape, a binary image of that shape whose
    pixel is white exactly when the normalised sample exceeds the threshold
    at that position, and black when the two are equal.  Both scripts
    threshold this way: on an h x w image, [apply_ordered_dithering] under
    bayer2, bayer4 and bayer8 and [apply_ordered_dither] under its five
    ordered patterns return the thresholder's image of the normalised
    samples and of the tiled matrix, two h x w buffers, so each output pixel
    is white exactly when its sample exceeds the tiled matrix there.  The
    result is a function of the image and the pattern name alone: a second
    run on the same inputs returns the same image. *)
Theorem C4_thresholder_strict image (h w : nat) :
  (1 ≤ h)%nat -> Np.has_shape h w image ->
  (∀ (rows columns : nat) (img_array threshold : list (list Q)),
     Np.has_shape rows columns img_array -> Np.has_shape rows columns threshold ->
     strictly_thresholded rows columns img_array threshold
       (thresholder img_array threshold)) ∧
  (∀ pattern_type : string,
     pattern_type ∈ ["bayer2"; "bayer4"; "bayer8"]%string ->
     ∃ bayer_matrix out,
       let matrix_size := BackgroundsV2.matrix_size_of pattern_type in
       let img_array := BackgroundsV2.to_array luma image in
       let threshold_matrix :=
         BackgroundsV2.threshold_buffer (Z.to_nat matrix_size) bayer_matrix h w in
       BackgroundsV2.create_bayer_matrix matrix_size = Some bayer_matrix ∧
       Np.has_shape h w img_array ∧ Np.has_shape h w threshold_matrix ∧
       BackgroundsV2.apply_ordered_dithering luma image pattern_type = Some out ∧
       out = thresholder img_array threshold_matrix ∧
       strictly_thresholded h w img_array threshold_matrix out) ∧
  (∀ (pattern_name : string) (threshold_matrix : list (list Q)),
     v3_threshold_matrix pattern_name = Some threshold_matrix ->
     ∃ out,
       let img_array := BackgroundsV3.to_array luma image in
       let tiled_matrix := BackgroundsV3.threshold_buffer threshold_matrix h w in
       Np.has_shape h w img_array ∧ Np.has_shape h w tiled_matrix ∧
       BackgroundsV3.apply_ordered_dither luma floyd_steinberg image pattern_name
         = Some out ∧
       out = thresholder img_array tiled_matrix ∧
       strictly_thresholded h w img_array tiled_matrix out).
Proof.
  intros Hh Hshape.
  assert (Harr : Np.has_shape h w (BackgroundsV2.to_array luma image))
    by (by apply mmap_shape).
  destruct (array_dimensions luma image h w Hh Hshape) as [Hheight Hwidth].
  split; [intros rows columns; apply thresholder_strict|]. split.
  - intros pattern_type Hin.
    assert (Hbuf : ∀ (M : nat) matrix, (1 ≤ M)%nat -> Np.has_shape M M matrix ->
              Np.has_shape h w (BackgroundsV2.threshold_buffer M matrix h w)).
    { intros M matrix HM Hm.
      by destruct (threshold_buffers_read_cyclically M h w matrix HM Hm)
        as [[? _] _]. }
    destruct (v2_bayer_paths luma image) as (H2 & H4 & H8).
    cbn zeta in H2, H4, H8. rewrite Hheight, Hwidth in H2, H4, H8.
    assert (Hcases : pattern_type = "bayer2"%string ∨ pattern_type = "bayer4"%string
                     ∨ pattern_type = "bayer8"%string).
    { rewrite !elem_of_cons in Hin. rewrite elem_of_nil in Hin. tauto. }
    destruct Hcases as [-> | [-> | ->]].
    + exists BackgroundsV2.bayer2. eexists. cbn zeta.
      assert (Hb : Np.has_shape h w
                (BackgroundsV2.threshold_buffer 2 BackgroundsV2.bayer2 h w))
        by (apply Hbuf; [lia | by_evaluation]).
      split; [reflexivity|]. split; [exact Harr|]. split; [exact Hb|].
      split; [exact H2|]. split; [reflexivity|]. by apply thresholder_strict.
    + exists BackgroundsV2.bayer4. eexists. cbn zeta.
      assert (Hb : Np.has_shape h w
                (BackgroundsV2.threshold_buffer 4 BackgroundsV2.bayer4 h w))
        by (apply Hbuf; [lia | by_evaluation]).
      split; [reflexivity|]. split; [exact Harr|]. split; [exact Hb|].
      split; [exact H4|]. split; [reflexivity|]. by apply thresholder_strict.
    + exists BackgroundsV2.bayer8. eexists. cbn zeta.
      assert (Hb : Np.has_shape h w
                (BackgroundsV2.threshold_buffer 8 BackgroundsV2.bayer8 h w))
        by (apply Hbuf; [lia | by_evaluation]).
      split; [reflexivity|]. split; [exact Harr|]. split; [exact Hb|].
      split; [exact H8|]. split; [reflexivity|]. by apply thresholder_strict.
  - intros pattern_name threshold_matrix Hm.
    destruct (v3_matrix_facts _ _ Hm) as (HM & HMshape & _).
    destruct (threshold_buffers_read_cyclically (length threshold_matrix) h w
                threshold_matrix HM HMshape) as [[_ Hb] _].
    pose proof (v3_ordered_path luma floyd_steinberg image pattern_name
                  threshold_matrix Hm) as Hpath.
    change (BackgroundsV3.to_array luma image)
      with (BackgroundsV2.to_array luma image) in *.
    rewrite Hheight, Hwidth in Hpath.
    eexists. cbn zeta.
    split; [exact Harr|]. split; [exact Hb|]. split; [exact Hpath|].
    split; [reflexivity|]. by apply thresholder_strict.
Qed.

End ThresholdingLines.

Lemma C4_thresholder_strict_witness :
  (∀ (rows columns : nat) (img_array threshold : list (list Q)),
     Np.has_shape rows columns img_array -> Np.has_shape rows columns threshold ->
     strictly_thresholded rows columns img_array threshold
       (thresholder img_array threshold)) ∧
  (∀ pattern_type : string,
     pattern_type ∈ ["bayer2"; "bayer4"; "bayer8"]%string ->
     ∃ bayer_matrix out,
       let matrix_size := BackgroundsV2.matrix_size_of pattern_type in
       let img_array := BackgroundsV2.to_array id two_pixel_image in
       let threshold_matrix :=
         BackgroundsV2.threshold_buffer (Z.to_nat matrix_size) bayer_matrix 1 2 in
       BackgroundsV2.create_bayer_matrix matrix_size = Some bayer_matrix ∧
       Np.has_shape 1 2 img_array ∧ Np.has_shape 1 2 threshold_matrix ∧
       BackgroundsV2.apply_ordered_dithering id two_pixel_image pattern_type
         = Some out ∧
       out = thresholder img_array threshold_matrix ∧
       strictly_thresholded 1 2 img_array threshold_matrix out) ∧
  (∀ (pattern_name : string) (threshold_matrix : list (list Q)),
     v3_threshold_matrix pattern_name = Some threshold_matrix ->
     ∃ out,
       let img_array := BackgroundsV3.to_array id two_pixel_image in
       let tiled_matrix := BackgroundsV3.threshold_buffer threshold_matrix 1 2 in
       Np.has_shape 1 2 img_array ∧ Np.has_shape 1 2 tiled_matrix ∧
       BackgroundsV3.apply_ordered_dither id (λ _, []) two_pixel_image pattern_name
         = Some out ∧
       out = thresholder img_array tiled_matrix ∧
       strictly_thresholded 1 2 img_array tiled_matrix out).
Proof.
  apply (C4_thresholder_strict id (λ _, []) two_pixel_image 1 2);
    [lia | split; [reflexivity | repeat constructor]].
Defined.
